(** * ezenv-sdk: the client of [src/client.ts] and the errors of [src/errors.ts]

    A shallow embedding of the [EzEnv] class.  The client's mutable fields
    are threaded explicitly, the network ([fetch], [response.json]) is an
    oracle handed to each call, and every call returns, next to its result,
    the client after the call and the list of effects it performed. *)

From Stdlib Require Import ZArith Ascii.
From stdpp Require Import base option strings list gmap fin_maps.

Local Open Scope string_scope.
Local Open Scope Z_scope.

(** ** JavaScript values as the client reads them *)

(** [!s] on a string: only the empty string is falsy. *)
Definition truthy_string (s : string) : bool := negb (String.eqb s "").

(** [o?.field] used as a condition: [undefined] and [false] are falsy. *)
Definition truthy_flag (b : option bool) : bool := default false b.

(** [s || d] on a possibly absent string. *)
Definition string_or (s : option string) (d : string) : string :=
  match s with
  | Some v => if truthy_string v then v else d
  | None => d
  end.

(** [n || d] on a possibly absent number: [undefined] and [0] are falsy. *)
Definition number_or (n : option Z) (d : Z) : Z :=
  match n with
  | Some v => if v =? 0 then d else v
  | None => d
  end.

(** The double-quote character of the template literal of the 404 message. *)
Definition dquote : string := String (Ascii.ascii_of_nat 34) EmptyString.

(** ** errors.ts *)

(** The five classes; [EzEnvError] is the base class of the other four. *)
Inductive ErrorClass : Type :=
  | EzEnvErrorC
  | NetworkErrorC
  | AuthErrorC
  | NotFoundErrorC
  | ValidationErrorC.

#[global] Instance ErrorClass_eq_dec : EqDecision ErrorClass.
Proof. solve_decision. Defined.

(** An instance: its class, and the [message] given to the constructor. *)
Record EzEnvError : Type := MkError { class : ErrorClass; message : string }.

#[global] Instance EzEnvError_eq_dec : EqDecision EzEnvError.
Proof. solve_decision. Defined.

(** [this.name = '...'] of each constructor. *)
Definition name (e : EzEnvError) : string :=
  match class e with
  | EzEnvErrorC => "EzEnvError"
  | NetworkErrorC => "NetworkError"
  | AuthErrorC => "AuthError"
  | NotFoundErrorC => "NotFoundError"
  | ValidationErrorC => "ValidationError"
  end.

Definition NetworkError (m : string) : EzEnvError := MkError NetworkErrorC m.
Definition AuthError (m : string) : EzEnvError := MkError AuthErrorC m.
Definition NotFoundError (m : string) : EzEnvError := MkError NotFoundErrorC m.
Definition ValidationError (m : string) : EzEnvError := MkError ValidationErrorC m.
Definition BaseError (m : string) : EzEnvError := MkError EzEnvErrorC m.

(** What a [throw] or a rejected promise carries inside [get]'s [try] block:
    an instance of the library ([error instanceof EzEnvError]), or any other
    object, of which the [catch] block reads [error.name] and
    [error.message] (either may be absent). *)
Inductive Thrown : Type :=
  | ThrownEzEnv (e : EzEnvError)
  | ThrownOther (error_name error_message : option string).

(** The result of a call: the resolved value, the library error the promise
    is rejected with, or a [TypeError] of the language, which is no
    [EzEnvError], with its message. *)
Inductive Result (A : Type) : Type :=
  | Ok (a : A)
  | Err (e : EzEnvError)
  | RawTypeError (m : string).
Arguments Ok {A} a.
Arguments Err {A} e.
Arguments RawTypeError {A} m.

(** ** types.ts *)

Record EzEnvConfig : Type := MkConfig {
  config_apiKey : string;
  config_baseUrl : option string
}.

Record EzEnvOptions : Type := MkOptions {
  noCache : option bool;
  timeout : option Z;
  override : option bool
}.

(** [Record<string, string>]. *)
Abbreviation Bundle := (gmap string string).

(** The parsed body, as read through the two casts of [get]:
    [(data as ErrorResponse).error] on a failure status and
    [(data as SecretsResponse).secrets] on success.  Nothing checks the body
    against these types: either field may be absent, and reads as
    [undefined], here [None]; a field [secrets] that is there is an object of
    strings. *)
Record Payload : Type := MkPayload {
  secrets : option Bundle;
  error : option string
}.

(** ** The network, as [get] sees it *)

(** The object given to [JSON.stringify] for the request body. *)
Record RequestBody : Type := MkBody {
  body_projectName : string;
  body_environmentName : string
}.

Record Request : Type := MkRequest {
  url : string;
  method : string;
  headers : list (string * string);
  body : RequestBody
}.

(** [await response.json()].  [JsonRejects] also stands for a body that parses
    to [null]: the first property read of [data] then throws a [TypeError] at
    the same point of the [try] block. *)
Inductive JsonOutcome : Type :=
  | JsonRejects (t : Thrown)
  | JsonResolves (data : Payload).

Record Response : Type := MkResponse {
  ok : bool;
  status : Z;
  json : JsonOutcome
}.

(** [await fetch(...)]. *)
Inductive FetchOutcome : Type :=
  | FetchRejects (t : Thrown)
  | FetchResolves (response : Response).

(** The world outside: what [fetch] does with a request whose abort signal
    fires after the given number of milliseconds. *)
Definition Transport : Type := Request → Z → FetchOutcome.

(** The effects of a call, in the order the code performs them. *)
Inductive Event : Type :=
  | SetTimeout (ms : Z)
  | Fetch (req : Request)
  | ClearTimeout.

Definition is_fetch (ev : Event) : bool :=
  match ev with Fetch _ => true | _ => false end.

(** The number of network requests in a list of effects. *)
Definition network_calls (evs : list Event) : nat :=
  length (filter (λ ev, is_fetch ev = true) evs).

(** ** String methods

    The methods [parseEnvFile] calls, for strings of code units below 256. *)
Module JS.

(** The white space and line terminators that [trim] removes. *)
Definition is_white (a : ascii) : bool :=
  match a with
  | "009" | "010" | "011" | "012" | "013" | " " | "160" => true
  | _ => false
  end%char.

Fixpoint trimStart (s : string) : string :=
  match s with
  | String a s' => if is_white a then trimStart s' else s
  | EmptyString => EmptyString
  end.

Fixpoint trimEnd (s : string) : string :=
  match s with
  | String a s' =>
      match trimEnd s' with
      | EmptyString => if is_white a then EmptyString else String a EmptyString
      | t => String a t
      end
  | EmptyString => EmptyString
  end.

(** [s.trim()]. *)
Definition trim (s : string) : string := trimEnd (trimStart s).

(** [s.includes(a)], for one character. *)
Fixpoint includes (s : string) (a : ascii) : bool :=
  match s with
  | String b s' => Ascii.eqb b a || includes s' a
  | EmptyString => false
  end.

(** [s.startsWith(prefix)]. *)
Definition startsWith (s prefix : string) : bool := String.prefix prefix s.

(** [const [first, ...rest] = s.split(sep)], for a separator of one
    character. *)
Fixpoint split_pieces (sep : ascii) (s : string) : string * list string :=
  match s with
  | EmptyString => (EmptyString, [])
  | String a s' =>
      let '(first, rest) := split_pieces sep s' in
      if Ascii.eqb a sep then (EmptyString, first :: rest) else (String a first, rest)
  end.

(** [s.split(sep)]. *)
Definition split (sep : ascii) (s : string) : list string :=
  let '(first, rest) := split_pieces sep s in first :: rest.

(** [pieces.join(sep)]. *)
Fixpoint join (sep : string) (pieces : list string) : string :=
  match pieces with
  | [] => EmptyString
  | x :: rest =>
      match rest with
      | [] => x
      | _ :: _ => x +:+ sep +:+ join sep rest
      end
  end.

End JS.

(** ** client.ts *)

(** The values of the map [cache] are what [get] has stored: a bundle, or
    [undefined] after a success body without [secrets]. *)
Record EzEnv : Type := MkEzEnv {
  apiKey : string;
  baseUrl : string;
  cache : gmap string (option Bundle)
}.

(** [constructor(config)]. *)
Definition new_EzEnv (config : EzEnvConfig) : Result EzEnv :=
  if negb (truthy_string (config_apiKey config)) then
    Err (ValidationError "API key is required")
  else if negb (String.prefix "ezenv_" (config_apiKey config)) then
    Err (ValidationError "Invalid API key format")
  else
    Ok {| apiKey := config_apiKey config;
          baseUrl := string_or (config_baseUrl config) "https://ezenv.dev";
          cache := ∅ |}.

(** [createClient(apiKey, baseUrl?)]. *)
Definition createClient (k : string) (u : option string) : Result EzEnv :=
  new_EzEnv (MkConfig k u).

(** [`${projectName}:${environmentName}`]. *)
Definition cacheKey (projectName environmentName : string) : string :=
  projectName +:+ ":" +:+ environmentName.

(** The argument of [fetch]. *)
Definition secrets_request (c : EzEnv) (projectName environmentName : string) : Request :=
  {| url := baseUrl c +:+ "/api/v1/secrets";
     method := "POST";
     headers := [("Authorization", "Bearer " +:+ apiKey c);
                 ("Content-Type", "application/json")];
     body := MkBody projectName environmentName |}.

(** The delay given to [setTimeout]: [options?.timeout || 30000]. *)
Definition timer_delay (options : option EzEnvOptions) : Z :=
  number_or (options ≫= timeout) 30000.

(** The [if (!response.ok)] block: the error thrown for a failure status. *)
Definition status_error (projectName environmentName : string)
    (st : Z) (err : option string) : EzEnvError :=
  if st =? 401 then AuthError (string_or err "Invalid API key")
  else if st =? 403 then AuthError (string_or err "Permission denied")
  else if st =? 404 then
    NotFoundError (string_or err
      ("Project " +:+ dquote +:+ projectName +:+ dquote +:+
       " or environment " +:+ dquote +:+ environmentName +:+ dquote +:+
       " not found"))
  else BaseError (string_or err "Failed to fetch secrets").

(** The body of the [try] block, from the point where the cache has been
    missed or bypassed: the value returned or the value thrown, the client
    and the effects. *)
Definition get_try (c : EzEnv) (projectName environmentName : string)
    (options : option EzEnvOptions) (net : Transport)
    : (Thrown + option Bundle) * EzEnv * list Event :=
  let ms := timer_delay options in
  let req := secrets_request c projectName environmentName in
  match net req ms with
  | FetchRejects t => (inl t, c, [SetTimeout ms; Fetch req])
  | FetchResolves response =>
      let evs := [SetTimeout ms; Fetch req; ClearTimeout] in
      match json response with
      | JsonRejects t => (inl t, c, evs)
      | JsonResolves data =>
          if negb (ok response) then
            (inl (ThrownEzEnv
                    (status_error projectName environmentName
                       (status response) (error data))), c, evs)
          else
            let s := secrets data in
            (inr s,
             {| apiKey := apiKey c; baseUrl := baseUrl c;
                cache := <[cacheKey projectName environmentName := s]> (cache c) |},
             evs)
      end
  end.

(** The [catch (error: any)] block: the error the call is rejected with. *)
Definition get_catch (t : Thrown) : EzEnvError :=
  match t with
  | ThrownEzEnv e => e
  | ThrownOther n m =>
      if bool_decide (n = Some "AbortError") then NetworkError "Request timeout"
      else if bool_decide (m = Some "Failed to fetch") then
        NetworkError "Failed to connect to EzEnv API"
      else NetworkError (string_or m "Network error occurred")
  end.

(** [async get(projectName, environmentName, options?)].  The arguments are
    strings, as the signature declares, so [typeof x !== 'string'] is false.
    The value it resolves with is the cached one or the field [secrets] of the
    body, a bundle or [undefined]. *)
Definition get (c : EzEnv) (projectName environmentName : string)
    (options : option EzEnvOptions) (net : Transport)
    : Result (option Bundle) * EzEnv * list Event :=
  if negb (truthy_string projectName) then
    (Err (ValidationError "Project name is required"), c, [])
  else if negb (truthy_string environmentName) then
    (Err (ValidationError "Environment name is required"), c, [])
  else
    let key := cacheKey projectName environmentName in
    match (if negb (truthy_flag (options ≫= noCache)) then cache c !! key else None) with
    | Some b => (Ok b, c, [])
    | None =>
        match get_try c projectName environmentName options net with
        | (inr s, c', evs) => (Ok s, c', evs)
        | (inl t, c', evs) => (Err (get_catch t), c', evs)
        end
    end.

(** ** process.env, as Node implements it on POSIX systems

    A read goes to [getenv] and, when the variable is not set, on to the
    prototype of the object; a write goes to [setenv], whose failure is not
    reported.  Names and values reach both as C strings. *)

(** The variables that are set, by name. *)
Abbreviation ProcessEnv := (gmap string string).

(** A string as the C library sees it: it ends before the first NUL
    character. *)
Fixpoint c_string (s : string) : string :=
  match s with
  | String a s' => if Ascii.eqb a "000"%char then EmptyString else String a (c_string s')
  | EmptyString => EmptyString
  end.

(** The names [setenv] refuses: the empty one and those with an equals sign. *)
Definition refused_name (n : string) : bool :=
  negb (truthy_string n) || JS.includes n "="%char.

(** The properties of [Object.prototype], which [process.env] inherits. *)
Definition Object_prototype : list string :=
  ["constructor"; "__defineGetter__"; "__defineSetter__"; "hasOwnProperty";
   "__lookupGetter__"; "__lookupSetter__"; "isPrototypeOf"; "propertyIsEnumerable";
   "toString"; "valueOf"; "__proto__"; "toLocaleString"].

(** [process.env[key] !== undefined].  For a name with an equals sign,
    [getenv] may find a value in another variable; nothing depends on that
    reading, as the assignment to such a name is refused. *)
Definition env_defined (env : ProcessEnv) (key : string) : bool :=
  bool_decide (is_Some (env !! c_string key)) || bool_decide (key ∈ Object_prototype).

(** [process.env[key] = value]. *)
Definition env_assign (env : ProcessEnv) (key value : string) : ProcessEnv :=
  if refused_name (c_string key) then env
  else <[c_string key := c_string value]> env.

(** The callback of [forEach] in [load], on one entry. *)
Definition load_entry (options : option EzEnvOptions) (env : ProcessEnv)
    (kv : string * string) : ProcessEnv :=
  if negb (truthy_flag (options ≫= override)) && env_defined env kv.1
  then env
  else env_assign env kv.1 kv.2.

(** [entries.forEach(callback)]. *)
Definition load_entries (options : option EzEnvOptions)
    (entries : list (string * string)) (env : ProcessEnv) : ProcessEnv :=
  foldl (load_entry options) env entries.

(** [Object.entries(secrets)] on an object: each own property once, in some
    order; the order is immaterial when no two keys name the same variable
    ([load_entries_order]). *)
Definition entries (b : Bundle) : list (string * string) := map_to_list b.

(** [async load(projectName, environmentName, options?)]: the result, the
    client, [process.env] and the effects after the call.  On [undefined],
    [Object.entries] throws a [TypeError], which nothing catches. *)
Definition load (c : EzEnv) (projectName environmentName : string)
    (options : option EzEnvOptions) (net : Transport) (env : ProcessEnv)
    : Result unit * EzEnv * ProcessEnv * list Event :=
  match get c projectName environmentName options net with
  | (Ok (Some s), c', evs) => (Ok tt, c', load_entries options (entries s) env, evs)
  | (Ok None, c', evs) =>
      (RawTypeError "Cannot convert undefined or null to object", c', env, evs)
  | (Err e, c', evs) => (Err e, c', env, evs)
  | (RawTypeError m, c', evs) => (RawTypeError m, c', env, evs)
  end.

(** A name that is set and read as it is written: not refused, without a NUL
    character and not inherited; and a value without a NUL character. *)
Definition plain_name (n : string) : bool :=
  negb (refused_name n) && negb (JS.includes n "000"%char)
  && negb (bool_decide (n ∈ Object_prototype)).

Definition plain_value (v : string) : bool := negb (JS.includes v "000"%char).

(** [clearCache()]. *)
Definition clearCache (c : EzEnv) : EzEnv :=
  {| apiKey := apiKey c; baseUrl := baseUrl c; cache := ∅ |}.

(** [getCacheSize()]. *)
Definition getCacheSize (c : EzEnv) : nat := size (cache c).

(** ** Sequences of calls on one client *)

(** A call that touches the cache.  [load] touches it only through the [get]
    it starts with. *)
Inductive Call : Type :=
  | CallGet (projectName environmentName : string)
      (options : option EzEnvOptions) (net : Transport)
  | CallClearCache.

(** One call, on the client and on the list of the pairs for which a [get] has
    resolved since the last [clearCache]. *)
Definition step (st : EzEnv * list (string * string)) (call : Call)
    : EzEnv * list (string * string) :=
  match call with
  | CallGet p e o net =>
      match get st.1 p e o net with
      | (Ok _, c', _) => (c', (p, e) :: st.2)
      | (_, c', _) => (c', st.2)
      end
  | CallClearCache => (clearCache st.1, [])
  end.

Definition run (c : EzEnv) (calls : list Call) : EzEnv * list (string * string) :=
  foldl step (c, []) calls.

(** Whether a name contains the separator of [cacheKey]. *)
Fixpoint has_colon (s : string) : bool :=
  match s with
  | EmptyString => false
  | String a s' => Ascii.eqb a ":"%char || has_colon s'
  end.

(** ** utils.ts *)

(** The line feed, and the two quote characters of the pattern of
    [parseEnvFile]. *)
Definition LF : ascii := "010"%char.

Definition is_quote (a : ascii) : bool :=
  Ascii.eqb a (Ascii.ascii_of_nat 34) || Ascii.eqb a "'"%char.

(** The second alternative of the pattern: a quote at the end. *)
Fixpoint remove_last_quote (s : string) : string :=
  match s with
  | EmptyString => EmptyString
  | String a s' =>
      match s' with
      | EmptyString => if is_quote a then EmptyString else s
      | String _ _ => String a (remove_last_quote s')
      end
  end.

(** [value.replace(pattern, '')], where the pattern, with the flag [g], is a
    quote at the start or a quote at the end: the quote at the start goes
    first, and the quote at the end is looked for in what follows it. *)
Definition remove_quotes (s : string) : string :=
  remove_last_quote
    match s with
    | String a s' => if is_quote a then s' else s
    | EmptyString => EmptyString
    end.

(** The own properties of the object [config]. *)
Abbreviation FileConfig := (gmap string string).

(** [config[k] = v] on an object made by the literal [{}]: the assignment of
    a string to [__proto__] goes to the setter of the prototype, which
    ignores it. *)
Definition set_property (config : FileConfig) (k v : string) : FileConfig :=
  if decide (k = "__proto__") then config else <[k := v]> config.

(** The callback of [forEach] in [parseEnvFile], on one line. *)
Definition parseEnvFile_line (config : FileConfig) (line : string) : FileConfig :=
  if JS.startsWith (JS.trim line) "#" || negb (truthy_string (JS.trim line)) then config
  else
    let '(key, valueParts) := JS.split_pieces "="%char line in
    if truthy_string key && (0 <? length valueParts)%nat then
      let value := JS.trim (JS.join "=" valueParts) in
      let cleanValue := remove_quotes value in
      set_property config (JS.trim key) cleanValue
    else config.

(** [parseEnvFile(content)]. *)
Definition parseEnvFile (content : string) : FileConfig :=
  foldl parseEnvFile_line ∅ (JS.split LF content).

(** [!config.FIELD] is false: the field is there and not empty. *)
Definition truthy_field (v : option string) : bool :=
  match v with
  | Some s => truthy_string s
  | None => false
  end.

(** The file system and the working directory, as [loadFromFile] sees them:
    [join(process.cwd(), '.env.ezenv')], [existsSync] and
    [readFileSync(path, 'utf8')], which returns the content or throws. *)
Record FileSystem : Type := MkFileSystem {
  default_path : string;
  existsSync : string → bool;
  readFileSync : string → Thrown + string
}.

(** [`${error.message}`]: an absent message is printed as [undefined]. *)
Definition template_message (t : Thrown) : string :=
  match t with
  | ThrownEzEnv e => message e
  | ThrownOther _ (Some m) => m
  | ThrownOther _ None => "undefined"
  end.

(** [async loadFromFile(filePath?)]: the result, [process.env] and the
    effects on the network after the call. *)
Definition loadFromFile (fs : FileSystem) (filePath : option string)
    (net : Transport) (env : ProcessEnv)
    : Result unit * ProcessEnv * list Event :=
  let path := string_or filePath (default_path fs) in
  if negb (existsSync fs path) then
    (Err (ValidationError (".env.ezenv file not found at " +:+ path)), env, [])
  else
    match readFileSync fs path with
    | inl t =>
        (Err (ValidationError
                ("Failed to read .env.ezenv file: " +:+ template_message t)), env, [])
    | inr content =>
        let config := parseEnvFile content in
        if negb (truthy_field (config !! "EZENV_API_KEY")) then
          (Err (ValidationError "EZENV_API_KEY not found in .env.ezenv"), env, [])
        else if negb (truthy_field (config !! "EZENV_PROJECT")) then
          (Err (ValidationError "EZENV_PROJECT not found in .env.ezenv"), env, [])
        else if negb (truthy_field (config !! "EZENV_ENVIRONMENT")) then
          (Err (ValidationError "EZENV_ENVIRONMENT not found in .env.ezenv"), env, [])
        else
          match new_EzEnv (MkConfig (default "" (config !! "EZENV_API_KEY"))
                             (config !! "EZENV_BASE_URL")) with
          | Err e => (Err e, env, [])
          | RawTypeError m => (RawTypeError m, env, [])
          | Ok client =>
              match load client (default "" (config !! "EZENV_PROJECT"))
                      (default "" (config !! "EZENV_ENVIRONMENT")) None net env with
              | (r, _, env', evs) => (r, env', evs)
              end
          end
    end.

(** [fromEnv()]. *)
Definition fromEnv (env : ProcessEnv) : Result EzEnv :=
  if negb (truthy_field (env !! "EZENV_API_KEY")) then
    Err (ValidationError "EZENV_API_KEY environment variable is not set")
  else
    new_EzEnv (MkConfig (default "" (env !! "EZENV_API_KEY")) (env !! "EZENV_BASE_URL")).

(** ** Fixtures, after the mocks of test/client.test.ts *)

(** [new EzEnv({ apiKey: 'ezenv_test123' })]. *)
Definition test_client : EzEnv :=
  {| apiKey := "ezenv_test123"; baseUrl := "https://ezenv.dev"; cache := ∅ |}.

(** The same client once it holds a bundle for a pair. *)
Definition test_client_with (p e : string) (b : Bundle) : EzEnv :=
  {| apiKey := "ezenv_test123"; baseUrl := "https://ezenv.dev";
     cache := <[cacheKey p e := Some b]> ∅ |}.

(** [mockResolvedValue({ ok: true, json: async () => ({ secrets }) })]. *)
Definition mockSecrets (b : Bundle) : Transport :=
  λ _ _, FetchResolves (MkResponse true 200 (JsonResolves (MkPayload (Some b) None))).

(** [mockResolvedValue({ ok: false, status, json: async () => ({ error }) })]. *)
Definition mockFailure (st : Z) (err : option string) : Transport :=
  λ _ _, FetchResolves (MkResponse false st (JsonResolves (MkPayload None err))).

(** [mockRejectedValue(error)]. *)
Definition mockRejectedValue (t : Thrown) : Transport :=
  λ _ _, FetchRejects t.

(** A response of the given status whose [json()] rejects. *)
Definition mockBadBody (st : Z) (t : Thrown) : Transport :=
  λ _ _, FetchResolves (MkResponse (bool_decide (200 ≤ st ≤ 299)) st (JsonRejects t)).


(** A transport that counts as unreachable in a check: it is never called. *)
Definition mockUnused : Transport :=
  λ _ _, FetchRejects (ThrownOther None None).

(** ** Basic facts *)

Lemma truthy_string_true (s : string) : truthy_string s = true ↔ s ≠ "".
Proof.
  unfold truthy_string. rewrite negb_true_iff.
  destruct (String.eqb_spec s ""); split; congruence.
Qed.

Lemma truthy_string_false (s : string) : truthy_string s = false ↔ s = "".
Proof.
  unfold truthy_string. rewrite negb_false_iff. apply String.eqb_eq.
Qed.

Lemma append_nil_l (s : string) : "" +:+ s = s.
Proof. reflexivity. Qed.

Lemma append_cons_l (a : ascii) (s t : string) : String a s +:+ t = String a (s +:+ t).
Proof. reflexivity. Qed.


Lemma string_or_absent (d : string) : string_or None d = d.
Proof. reflexivity. Qed.

Lemma string_or_empty (d : string) : string_or (Some "") d = d.
Proof. reflexivity. Qed.

(** The three guards [get] passes before it enters its [try] block. *)
Lemma get_enters_try c p e o net :
  p ≠ "" → e ≠ "" →
  truthy_flag (o ≫= noCache) = true ∨ cache c !! cacheKey p e = None →
  get c p e o net =
    match get_try c p e o net with
    | (inr s, c', evs) => (Ok s, c', evs)
    | (inl t, c', evs) => (Err (get_catch t), c', evs)
    end.
Proof.
  intros Hp He Hmiss. unfold get.
  apply truthy_string_true in Hp as ->. apply truthy_string_true in He as ->.
  simpl. destruct Hmiss as [-> | Hnone]; [done |].
  rewrite Hnone. by destruct (negb _).
Qed.

(** A cache hit: nothing else happens. *)
Lemma get_hit c p e o net b :
  p ≠ "" → e ≠ "" →
  truthy_flag (o ≫= noCache) = false → cache c !! cacheKey p e = Some b →
  get c p e o net = (Ok b, c, []).
Proof.
  intros Hp He Hflag Hb. unfold get.
  apply truthy_string_true in Hp as ->. apply truthy_string_true in He as ->.
  simpl. by rewrite Hflag, Hb.
Qed.

(** Whatever [get] resolves with is in the cache, under the key of the call. *)
Lemma get_ok_cached c p e o net b c' evs :
  get c p e o net = (Ok b, c', evs) →
  p ≠ "" ∧ e ≠ "" ∧ cache c' !! cacheKey p e = Some b.
Proof.
  unfold get.
  destruct (truthy_string p) eqn:Hp; simpl; [| by intros [=]].
  destruct (truthy_string e) eqn:He; simpl; [| by intros [=]].
  apply truthy_string_true in Hp, He. intros H. split; [done |]. split; [done |].
  destruct (if negb (truthy_flag (o ≫= noCache)) then cache c !! cacheKey p e else None)
    as [b0 |] eqn:Hlook.
  - injection H as <- <- _. by destruct (negb _).
  - unfold get_try in H.
    destruct (net _ _) as [t | r]; [by inversion H |].
    destruct (json r) as [t | d]; [by inversion H |].
    destruct (negb (ok r)); [by inversion H |].
    injection H as <- <- _. simpl. apply lookup_insert_eq.
Qed.

(** A rejected [get] leaves the client as it was. *)
Lemma get_err_client c p e o net err c' evs :
  get c p e o net = (Err err, c', evs) → c' = c.
Proof.
  unfold get.
  destruct (negb (truthy_string p)); [by intros [=] |].
  destruct (negb (truthy_string e)); [by intros [=] |].
  destruct (if negb _ then _ else _); [by intros [=] |].
  unfold get_try.
  destruct (net _ _) as [t | r]; [by intros [=] |].
  destruct (json r) as [t | d]; [by intros [=] |].
  destruct (negb (ok r)); by intros [=].
Qed.

Lemma new_EzEnv_cache cfg c : new_EzEnv cfg = Ok c → cache c = ∅.
Proof.
  unfold new_EzEnv.
  destruct (negb _); [by intros [=] |].
  destruct (negb _); [by intros [=] |]. by intros [= <-].
Qed.

(** ** Validation *)

(** C8: when the project name or the environment name is the empty string,
    [get] is rejected with a [ValidationError] whose message names a field
    that is indeed missing; the transport is not consulted (the outcome is the
    same for every transport and no effect is recorded), and the client, so
    the cache and its size, is returned as it was given. *)
Theorem get_validates_names_first c p e o net :
  p = "" ∨ e = "" →
  ∃ field,
    get c p e o net = (Err (ValidationError (field +:+ " name is required")), c, [])
    ∧ network_calls (get c p e o net).2 = 0%nat
    ∧ getCacheSize (get c p e o net).1.2 = getCacheSize c
    ∧ ((field = "Project" ∧ p = "") ∨ (field = "Environment" ∧ e = "")).
Proof.
  intros H. unfold get.
  destruct (truthy_string p) eqn:Hp; simpl.
  - destruct H as [-> | ->]; [done |].
    exists "Environment". simpl. repeat split; auto.
  - apply truthy_string_false in Hp. exists "Project". repeat split; auto.
Qed.

Lemma get_validates_names_first_witness :
  ∃ field,
    get test_client "project" "" None mockUnused
      = (Err (ValidationError (field +:+ " name is required")), test_client, [])
    ∧ network_calls (get test_client "project" "" None mockUnused).2 = 0%nat
    ∧ getCacheSize (get test_client "project" "" None mockUnused).1.2
      = getCacheSize test_client
    ∧ ((field = "Project" ∧ "project" = "") ∨ (field = "Environment" ∧ "" = "")).
Proof.
  apply (get_validates_names_first test_client "project" "" None mockUnused).
  right. reflexivity.
Defined.

(** ** Failure statuses *)




(** ** Failures without a usable response *)

(** C3, as amended: when [fetch] rejects with an error named [AbortError],
    [get] is rejected with [NetworkError] and the message [Request timeout];
    when it rejects with any other error that is not the library's own, [get]
    is rejected with [NetworkError] and the message
    [Failed to connect to EzEnv API] if the error's message is
    [Failed to fetch], else the error's own message, else
    [Network error occurred]; that message differs from the one of a timeout
    unless the error's own message is [Request timeout]. *)
Theorem get_transport_failure c p e o net n m :
  p ≠ "" → e ≠ "" →
  truthy_flag (o ≫= noCache) = true ∨ cache c !! cacheKey p e = None →
  net (secrets_request c p e) (timer_delay o) = FetchRejects (ThrownOther n m) →
  ∃ msg,
    get c p e o net
      = (Err (NetworkError msg), c,
         [SetTimeout (timer_delay o); Fetch (secrets_request c p e)])
    ∧ (n = Some "AbortError" → msg = "Request timeout")
    ∧ (n ≠ Some "AbortError" → m = Some "Failed to fetch" →
       msg = "Failed to connect to EzEnv API")
    ∧ (n ≠ Some "AbortError" → m ≠ Some "Failed to fetch" →
       msg = string_or m "Network error occurred")
    ∧ (n ≠ Some "AbortError" → m ≠ Some "Request timeout" →
       msg ≠ "Request timeout").
Proof.
  intros Hp He Hmiss Hnet.
  rewrite (get_enters_try _ _ _ _ _ Hp He Hmiss).
  unfold get_try. rewrite Hnet. simpl.
  case_bool_decide as Hn; [| case_bool_decide as Hm];
    (eexists; split; [reflexivity |]); repeat split; try done.
  intros _ Hrt.
  destruct m as [x |]; [| done]. simpl.
  destruct (truthy_string x); [| done]. congruence.
Qed.

Lemma get_transport_failure_witness :
  ∃ msg,
    get test_client "project" "env" None
        (mockRejectedValue (ThrownOther (Some "TypeError") (Some "Failed to fetch")))
      = (Err (NetworkError msg), test_client,
         [SetTimeout (timer_delay None);
          Fetch (secrets_request test_client "project" "env")])
    ∧ (Some "TypeError" = Some "AbortError" → msg = "Request timeout")
    ∧ (Some "TypeError" ≠ Some "AbortError" →
       Some "Failed to fetch" = Some "Failed to fetch" →
       msg = "Failed to connect to EzEnv API")
    ∧ (Some "TypeError" ≠ Some "AbortError" →
       Some "Failed to fetch" ≠ Some "Failed to fetch" →
       msg = string_or (Some "Failed to fetch") "Network error occurred")
    ∧ (Some "TypeError" ≠ Some "AbortError" →
       Some "Failed to fetch" ≠ Some "Request timeout" →
       msg ≠ "Request timeout").
Proof.
  apply (get_transport_failure test_client "project" "env" None
           (mockRejectedValue (ThrownOther (Some "TypeError") (Some "Failed to fetch")))).
  - discriminate.
  - discriminate.
  - right. reflexivity.
  - reflexivity.
Defined.

(** C3, as stated, fails: a transport failure that is no abort, but whose own
    message is [Request timeout], is rejected with the very error of a
    timeout. *)
Lemma get_transport_failure_same_message :
  (get test_client "project" "env" None
     (mockRejectedValue (ThrownOther (Some "Error") (Some "Request timeout")))).1.1
    = Err (NetworkError "Request timeout")
  ∧ (get test_client "project" "env" None
       (mockRejectedValue (ThrownOther (Some "AbortError") (Some "AbortError")))).1.1
    = Err (NetworkError "Request timeout").
Proof. split; reflexivity. Qed.

(** C9, as amended: when reading the body of a received response throws an
    error that is not the library's own, whatever the status of the response,
    [get] is rejected with [NetworkError]; the message is the error's own
    message, or [Network error occurred] when it has none, provided the error
    is not named [AbortError] and its message is not [Failed to fetch]; an
    error named [AbortError] gives [Request timeout], and otherwise the
    message [Failed to fetch] gives [Failed to connect to EzEnv API].  The
    cache is not written. *)
Theorem get_body_failure c p e o net r n m :
  p ≠ "" → e ≠ "" →
  truthy_flag (o ≫= noCache) = true ∨ cache c !! cacheKey p e = None →
  net (secrets_request c p e) (timer_delay o) = FetchResolves r →
  json r = JsonRejects (ThrownOther n m) →
  ∃ msg,
    get c p e o net
      = (Err (NetworkError msg), c,
         [SetTimeout (timer_delay o); Fetch (secrets_request c p e); ClearTimeout])
    ∧ (n ≠ Some "AbortError" → m ≠ Some "Failed to fetch" →
       msg = string_or m "Network error occurred")
    ∧ (n = Some "AbortError" → msg = "Request timeout")
    ∧ (n ≠ Some "AbortError" → m = Some "Failed to fetch" →
       msg = "Failed to connect to EzEnv API").
Proof.
  intros Hp He Hmiss Hnet Hjson.
  rewrite (get_enters_try _ _ _ _ _ Hp He Hmiss).
  unfold get_try. rewrite Hnet, Hjson. simpl.
  case_bool_decide as Hn; [| case_bool_decide as Hm];
    (eexists; split; [reflexivity |]); repeat split; done.
Qed.

Lemma get_body_failure_witness :
  ∃ msg,
    get test_client "project" "env" None
        (mockBadBody 200 (ThrownOther (Some "SyntaxError") (Some "Unexpected token <")))
      = (Err (NetworkError msg), test_client,
         [SetTimeout (timer_delay None);
          Fetch (secrets_request test_client "project" "env"); ClearTimeout])
    ∧ (Some "SyntaxError" ≠ Some "AbortError" →
       Some "Unexpected token <" ≠ Some "Failed to fetch" →
       msg = string_or (Some "Unexpected token <") "Network error occurred")
    ∧ (Some "SyntaxError" = Some "AbortError" → msg = "Request timeout")
    ∧ (Some "SyntaxError" ≠ Some "AbortError" →
       Some "Unexpected token <" = Some "Failed to fetch" →
       msg = "Failed to connect to EzEnv API").
Proof.
  apply (get_body_failure test_client "project" "env" None
           (mockBadBody 200 (ThrownOther (Some "SyntaxError") (Some "Unexpected token <")))
           (MkResponse true 200
              (JsonRejects (ThrownOther (Some "SyntaxError") (Some "Unexpected token <"))))).
  - discriminate.
  - discriminate.
  - right. reflexivity.
  - reflexivity.
  - reflexivity.
Defined.

(** C9, as stated, fails: when reading the body of a 200 response throws an
    error named [AbortError], [get] is rejected with the message
    [Request timeout], which is not the message of that error. *)
Lemma get_body_failure_other_message :
  (get test_client "project" "env" None
     (mockBadBody 200
        (ThrownOther (Some "AbortError") (Some "This operation was aborted")))).1.1
    = Err (NetworkError "Request timeout")
  ∧ NetworkError "Request timeout"
    ≠ NetworkError (string_or (Some "This operation was aborted") "Network error occurred").
Proof. split; [reflexivity | discriminate]. Qed.

(** ** The timer *)


(** ** The cache *)

(** C4: once [get] has resolved for a pair, a second [get] for that pair
    without [noCache] resolves with the same bundle, performs no effect, so
    no network request, and returns the client unchanged, so the cache keeps
    its size; that size is 1 when the first call was made on a client fresh
    from the constructor. *)
Theorem get_twice_hits_cache c p e o1 net1 b c1 evs1 o2 net2 :
  get c p e o1 net1 = (Ok b, c1, evs1) →
  truthy_flag (o2 ≫= noCache) = false →
  get c1 p e o2 net2 = (Ok b, c1, [])
  ∧ network_calls (get c1 p e o2 net2).2 = 0%nat
  ∧ getCacheSize (get c1 p e o2 net2).1.2 = getCacheSize c1
  ∧ (∀ cfg, new_EzEnv cfg = Ok c → getCacheSize c1 = 1%nat).
Proof.
  intros Hfirst Hflag.
  destruct (get_ok_cached _ _ _ _ _ _ _ _ Hfirst) as (Hp & He & Hb).
  rewrite (get_hit _ _ _ _ _ _ Hp He Hflag Hb).
  repeat split. intros cfg Hnew. apply new_EzEnv_cache in Hnew.
  revert Hfirst. unfold get.
  apply truthy_string_true in Hp as ->. apply truthy_string_true in He as ->.
  simpl. rewrite Hnew, lookup_empty.
  replace (if negb (truthy_flag (o1 ≫= noCache)) then None else None)
    with (@None (option Bundle)) by (by destruct (negb _)).
  unfold get_try.
  destruct (net1 _ _) as [t | r]; [by intros [=] |].
  destruct (json r) as [t | d]; [by intros [=] |].
  destruct (negb (ok r)); [by intros [=] |].
  intros [= _ <-]. unfold getCacheSize. simpl. rewrite Hnew.
  rewrite insert_empty. apply map_size_singleton.
Qed.

Lemma get_twice_hits_cache_witness :
  get (test_client_with "proj" "dev" {["KEY" := "value"]}) "proj" "dev" None mockUnused
    = (Ok (Some {["KEY" := "value"]}),
       test_client_with "proj" "dev" {["KEY" := "value"]}, [])
  ∧ network_calls
      (get (test_client_with "proj" "dev" {["KEY" := "value"]})
           "proj" "dev" None mockUnused).2 = 0%nat
  ∧ getCacheSize
      (get (test_client_with "proj" "dev" {["KEY" := "value"]})
           "proj" "dev" None mockUnused).1.2
    = getCacheSize (test_client_with "proj" "dev" {["KEY" := "value"]})
  ∧ (∀ cfg, new_EzEnv cfg = Ok test_client →
       getCacheSize (test_client_with "proj" "dev" {["KEY" := "value"]}) = 1%nat).
Proof.
  apply (get_twice_hits_cache test_client "proj" "dev" None
           (mockSecrets {["KEY" := "value"]}) (Some {["KEY" := "value"]})
           (test_client_with "proj" "dev" {["KEY" := "value"]})
           [SetTimeout 30000; Fetch (secrets_request test_client "proj" "dev");
            ClearTimeout]
           None mockUnused).
  - reflexivity.
  - reflexivity.
Defined.

(** C5: when the pair has a cache entry and [noCache] is set, [get] arms the
    timer and issues exactly one network request; when the response is a
    success, [get] resolves with the bundle of that response and the entry of
    the pair is overwritten with it. *)
Theorem get_noCache_refetches c p e o net old :
  p ≠ "" → e ≠ "" →
  cache c !! cacheKey p e = Some old →
  truthy_flag (o ≫= noCache) = true →
  ∃ res c' rest,
    get c p e o net
      = (res, c', SetTimeout (timer_delay o) :: Fetch (secrets_request c p e) :: rest)
    ∧ network_calls (get c p e o net).2 = 1%nat
    ∧ (∀ r d,
         net (secrets_request c p e) (timer_delay o) = FetchResolves r →
         ok r = true → json r = JsonResolves d →
         res = Ok (secrets d)
         ∧ cache c' = <[cacheKey p e := secrets d]> (cache c)
         ∧ cache c' !! cacheKey p e = Some (secrets d)).
Proof.
  intros Hp He _ Hflag.
  rewrite (get_enters_try _ _ _ _ _ Hp He (or_introl Hflag)).
  unfold get_try.
  destruct (net _ _) as [t | r].
  { eexists _, _, _. split; [reflexivity |]. split; [reflexivity |]. by intros ?? [=]. }
  destruct (json r) as [t | d] eqn:Hjson.
  { eexists _, _, _. split; [reflexivity |]. split; [reflexivity |].
    intros r' d' [= <-] _. by rewrite Hjson. }
  destruct (ok r) eqn:Hok; simpl.
  - eexists _, _, _. split; [reflexivity |]. split; [reflexivity |].
    intros r' d' [= <-] _. rewrite Hjson. intros [= <-].
    simpl. by rewrite lookup_insert_eq.
  - eexists _, _, _. split; [reflexivity |]. split; [reflexivity |].
    intros r' d' [= <-]. by rewrite Hok.
Qed.

Lemma get_noCache_refetches_witness :
  ∃ res c' rest,
    get (test_client_with "proj" "dev" {["KEY" := "old"]}) "proj" "dev"
        (Some (MkOptions (Some true) None None)) (mockSecrets {["KEY" := "new"]})
      = (res, c',
         SetTimeout 30000
           :: Fetch (secrets_request
                       (test_client_with "proj" "dev" {["KEY" := "old"]}) "proj" "dev")
           :: rest)
    ∧ network_calls
        (get (test_client_with "proj" "dev" {["KEY" := "old"]}) "proj" "dev"
             (Some (MkOptions (Some true) None None))
             (mockSecrets {["KEY" := "new"]})).2 = 1%nat
    ∧ (∀ r d,
         mockSecrets {["KEY" := "new"]}
           (secrets_request (test_client_with "proj" "dev" {["KEY" := "old"]})
              "proj" "dev") 30000 = FetchResolves r →
         ok r = true → json r = JsonResolves d →
         res = Ok (secrets d)
         ∧ cache c'
           = <[cacheKey "proj" "dev" := secrets d]>
               (cache (test_client_with "proj" "dev" {["KEY" := "old"]}))
         ∧ cache c' !! cacheKey "proj" "dev" = Some (secrets d)).
Proof.
  apply (get_noCache_refetches (test_client_with "proj" "dev" {["KEY" := "old"]})
           "proj" "dev" (Some (MkOptions (Some true) None None))
           (mockSecrets {["KEY" := "new"]}) (Some {["KEY" := "old"]})).
  - discriminate.
  - discriminate.
  - reflexivity.
  - reflexivity.
Defined.

(** C1 fails on the code: the key of a pair is the two names joined by a
    colon, so the pairs [("a:b", "c")] and [("a", "b:c")] share a key.  After
    one successful [get] for the first pair on a fresh client, a [get] for the
    second pair, which was never fetched, resolves with the bundle of the
    first, whatever the transport would have answered, and performs no
    network request. *)
Theorem get_cache_key_collision :
  new_EzEnv (MkConfig "ezenv_test123" None) = Ok test_client
  ∧ get test_client "a:b" "c" None (mockSecrets {["KEY" := "value"]})
    = (Ok (Some {["KEY" := "value"]}),
       test_client_with "a:b" "c" {["KEY" := "value"]},
       [SetTimeout 30000; Fetch (secrets_request test_client "a:b" "c"); ClearTimeout])
  ∧ (∀ net : Transport,
       get (test_client_with "a:b" "c" {["KEY" := "value"]}) "a" "b:c" None net
       = (Ok (Some {["KEY" := "value"]}),
          test_client_with "a:b" "c" {["KEY" := "value"]}, []))
  ∧ ("a:b", "c") ≠ ("a", "b:c")
  ∧ cacheKey "a:b" "c" = cacheKey "a" "b:c".
Proof. repeat split; try reflexivity. discriminate. Qed.

(** ** Loading into [process.env] *)

Lemma truthy_flag_true (b : option bool) : truthy_flag b = true ↔ b = Some true.
Proof. destruct b as [[] |]; simpl; split; congruence. Qed.

Lemma c_string_nul_free (s : string) :
  JS.includes s "000" = false → c_string s = s.
Proof.
  induction s as [| a s IH]; [done |]. simpl.
  intros [Ha Hs]%orb_false_iff. by rewrite Ha, (IH Hs).
Qed.

(** Whether a name reads as defined depends on its own variable only. *)
Lemma env_defined_ext (env env' : ProcessEnv) k :
  env' !! c_string k = env !! c_string k → env_defined env' k = env_defined env k.
Proof. unfold env_defined. by intros ->. Qed.

Lemma load_entry_lookup_ne o (env : ProcessEnv) kv n :
  c_string kv.1 ≠ n → load_entry o env kv !! n = env !! n.
Proof.
  intros Hne. unfold load_entry, env_assign.
  destruct (_ && _); [done |]. destruct (refused_name _); [done |].
  by rewrite lookup_insert_ne.
Qed.

Lemma load_entry_lookup_eq o (env : ProcessEnv) k v :
  load_entry o env (k, v) !! c_string k =
    if negb (truthy_flag (o ≫= override)) && env_defined env k then env !! c_string k
    else if refused_name (c_string k) then env !! c_string k
    else Some (c_string v).
Proof.
  unfold load_entry, env_assign. simpl.
  destruct (_ && _); [done |]. destruct (refused_name _); [done |].
  by rewrite lookup_insert_eq.
Qed.

(** A variable that no entry names is not touched. *)
Lemma load_entries_lookup_notin o (l : list (string * string)) (env : ProcessEnv) n :
  n ∉ (λ kv, c_string kv.1) <$> l → load_entries o l env !! n = env !! n.
Proof.
  revert env. induction l as [| [k0 v0] l IH]; intros env Hn; [done |].
  rewrite fmap_cons, not_elem_of_cons in Hn. destruct Hn as [Hne Hn].
  unfold load_entries in *. simpl. rewrite (IH _ Hn).
  by apply load_entry_lookup_ne.
Qed.

(** When no two entries name the same variable, each variable is decided by
    its own entry alone. *)
Lemma load_entries_lookup_in o (l : list (string * string)) (env : ProcessEnv) k v :
  NoDup ((λ kv, c_string kv.1) <$> l) → (k, v) ∈ l →
  load_entries o l env !! c_string k =
    if negb (truthy_flag (o ≫= override)) && env_defined env k then env !! c_string k
    else if refused_name (c_string k) then env !! c_string k
    else Some (c_string v).
Proof.
  revert env. induction l as [| [k0 v0] l IH]; intros env Hnd Hin.
  { by apply elem_of_nil in Hin. }
  rewrite fmap_cons in Hnd. apply NoDup_cons in Hnd as [Hk0 Hnd]. simpl in Hk0.
  change (load_entries o ((k0, v0) :: l) env)
    with (load_entries o l (load_entry o env (k0, v0))).
  apply elem_of_cons in Hin as [[= -> ->] | Hin].
  - rewrite (load_entries_lookup_notin _ _ _ _ Hk0).
    apply load_entry_lookup_eq.
  - assert (c_string k0 ≠ c_string k) as Hne.
    { intros Heq. apply Hk0. rewrite Heq.
      apply list_elem_of_fmap. by exists (k, v). }
    rewrite (IH _ Hnd Hin).
    pose proof (load_entry_lookup_ne o env (k0, v0) (c_string k) Hne) as Hsame.
    by rewrite (env_defined_ext _ _ _ Hsame), Hsame.
Qed.

(** The order in which [forEach] visits the properties does not matter then. *)
Lemma load_entries_order o (l1 l2 : list (string * string)) (env : ProcessEnv) :
  NoDup ((λ kv, c_string kv.1) <$> l1) → l1 ≡ₚ l2 →
  load_entries o l1 env = load_entries o l2 env.
Proof.
  intros Hnd Hperm.
  assert (NoDup ((λ kv, c_string kv.1) <$> l2)) as Hnd2 by (by rewrite <- Hperm).
  apply map_eq. intros n.
  destruct (decide (n ∈ (λ kv, c_string kv.1) <$> l1)) as [Hin | Hnin].
  - apply list_elem_of_fmap in Hin as ([k v] & -> & Hin). simpl.
    rewrite (load_entries_lookup_in _ _ _ _ _ Hnd Hin).
    rewrite Hperm in Hin.
    by rewrite (load_entries_lookup_in _ _ _ _ _ Hnd2 Hin).
  - rewrite (load_entries_lookup_notin _ _ _ _ Hnin).
    rewrite Hperm in Hnin.
    by rewrite (load_entries_lookup_notin _ _ _ _ Hnin).
Qed.


(** [process.env] after the loop of [load], variable by variable, for a
    bundle whose keys hold no NUL character. *)
Lemma load_entries_bundle o (s : Bundle) (env : ProcessEnv) k :
  map_Forall (λ k' _, JS.includes k' "000" = false) s →
  load_entries o (entries s) env !! k =
    match s !! k with
    | Some v =>
        if negb (truthy_flag (o ≫= override)) && env_defined env k then env !! k
        else if refused_name k then env !! k
        else Some (c_string v)
    | None => env !! k
    end.
Proof.
  intros Hkeys. unfold entries.
  assert ((λ kv : string * string, c_string kv.1) <$> map_to_list s
          = (map_to_list s).*1) as Hnames.
  { apply list_fmap_ext. intros i [k' v'] Hin. simpl.
    apply list_elem_of_lookup_2, elem_of_map_to_list in Hin.
    apply c_string_nul_free. exact (Hkeys k' v' Hin). }
  destruct (s !! k) as [v |] eqn:Hk.
  - pose proof (c_string_nul_free k (Hkeys k v Hk)) as Hck.
    rewrite <- Hck at 1. rewrite (load_entries_lookup_in o _ env k v).
    + by rewrite Hck.
    + rewrite Hnames. apply NoDup_fst_map_to_list.
    + by apply elem_of_map_to_list.
  - apply load_entries_lookup_notin. rewrite Hnames.
    intros Hin. apply list_elem_of_fmap in Hin as ([k' v] & -> & Hin).
    apply elem_of_map_to_list in Hin. simpl in Hk. congruence.
Qed.

Lemma load_entry_grows o (env : ProcessEnv) kv :
  truthy_flag (o ≫= override) = false → env ⊆ load_entry o env kv.
Proof.
  intros Hflag. unfold load_entry, env_assign, env_defined. rewrite Hflag. simpl.
  destruct (env !! c_string kv.1) as [x |] eqn:Hx.
  - by rewrite bool_decide_true.
  - destruct (_ || _); [done |]. destruct (refused_name _); [done |].
    by apply insert_subseteq.
Qed.

(** Without [override], the loop only adds variables. *)
Lemma load_entries_grows o (l : list (string * string)) (env : ProcessEnv) :
  truthy_flag (o ≫= override) = false → env ⊆ load_entries o l env.
Proof.
  intros Hflag. unfold load_entries.
  induction l as [| kv l IH] using rev_ind; [done |].
  rewrite foldl_app. simpl. etrans; [exact IH |]. by apply load_entry_grows.
Qed.




(** The value a [get] resolves with is the cached one or the field [secrets]
    of a success body; a rejected [get] leaves the client as it was, and no
    [get] ends with a [TypeError]. *)
Lemma get_outcome c p e o net :
  match get c p e o net with
  | (Ok v, c', evs) =>
      (cache c !! cacheKey p e = Some v ∧ c' = c ∧ evs = [])
      ∨ (∃ r d,
           net (secrets_request c p e) (timer_delay o) = FetchResolves r
           ∧ ok r = true ∧ json r = JsonResolves d ∧ v = secrets d)
  | (Err _, c', _) => c' = c
  | (RawTypeError _, _, _) => False
  end.
Proof.
  unfold get.
  destruct (negb (truthy_string p)); [done |].
  destruct (negb (truthy_string e)); [done |].
  destruct (negb (truthy_flag (o ≫= noCache))).
  - destruct (cache c !! cacheKey p e) as [b |] eqn:Hb; [by left |].
    unfold get_try.
    destruct (net _ _) as [t | r]; [done |].
    destruct (json r) as [t | d] eqn:Hjson; [done |].
    destruct (ok r) eqn:Hok; simpl; [| done]. right. by exists r, d.
  - unfold get_try.
    destruct (net _ _) as [t | r]; [done |].
    destruct (json r) as [t | d] eqn:Hjson; [done |].
    destruct (ok r) eqn:Hok; simpl; [| done]. right. by exists r, d.
Qed.



(** ** The cache along a sequence of calls *)

(** A resolved [get] adds the key of its pair to the cache, and nothing else. *)
Lemma get_ok_cache_dom c p e o net (s : option Bundle) c' evs :
  get c p e o net = (Ok s, c', evs) →
  ∀ k, is_Some (cache c' !! k) ↔ k = cacheKey p e ∨ is_Some (cache c !! k).
Proof.
  intros Hget k.
  destruct (get_ok_cached _ _ _ _ _ _ _ _ Hget) as (Hp & He & Hs).
  revert Hget. unfold get.
  apply truthy_string_true in Hp as ->. apply truthy_string_true in He as ->. simpl.
  destruct (if negb _ then _ else _) as [b |] eqn:Hlook.
  - intros [= -> <- _]. split; [by right |].
    intros [-> | Hk]; [by rewrite Hs | done].
  - unfold get_try.
    destruct (net _ _) as [t | r]; [by intros [=] |].
    destruct (json r) as [t | d]; [by intros [=] |].
    destruct (negb (ok r)); [by intros [=] |].
    intros [= _ <- _]. simpl. rewrite lookup_insert.
    case_decide as Hk; [subst k | ].
    + split; [by left | by eexists].
    + split; [by right | by intros [-> | ?]].
Qed.

Lemma step_invariant st call :
  (∀ k, is_Some (cache st.1 !! k) ↔ ∃ p e, (p, e) ∈ st.2 ∧ cacheKey p e = k) →
  ∀ k, is_Some (cache (step st call).1 !! k)
       ↔ ∃ p e, (p, e) ∈ (step st call).2 ∧ cacheKey p e = k.
Proof.
  destruct st as [c done_]. simpl. intros Hinv k.
  destruct call as [p e o net |]; simpl.
  - pose proof (get_outcome c p e o net) as Hout.
    destruct (get c p e o net) as [[[s | err | m] c'] evs] eqn:Hget; simpl; [| | done].
    + rewrite (get_ok_cache_dom _ _ _ _ _ _ _ _ Hget), Hinv. split.
      * intros [-> | (p' & e' & Hin & <-)].
        { exists p, e. split; [apply elem_of_cons; by left | done]. }
        { exists p', e'. split; [apply elem_of_cons; by right | done]. }
      * intros (p' & e' & Hin & <-).
        apply elem_of_cons in Hin as [[= -> ->] | Hin]; [by left |].
        right. by exists p', e'.
    + by rewrite (get_err_client _ _ _ _ _ _ _ _ Hget).
  - rewrite lookup_empty. split; [by intros [? [=]] |].
    intros (p' & e' & Hin & _). by apply elem_of_nil in Hin.
Qed.

(** On a client that starts with an empty cache, a key is in the cache exactly
    when it is the key of a pair for which a [get] has resolved since the last
    [clearCache]. *)
Lemma run_cache_keys c calls :
  cache c = ∅ →
  ∀ k, is_Some (cache (run c calls).1 !! k)
       ↔ ∃ p e, (p, e) ∈ (run c calls).2 ∧ cacheKey p e = k.
Proof.
  intros Hempty. unfold run.
  induction calls as [| call calls IH] using rev_ind.
  - simpl. intros k. rewrite Hempty, lookup_empty. split; [by intros [? [=]] |].
    intros (p & e & Hin & _). by apply elem_of_nil in Hin.
  - rewrite foldl_app. simpl. by apply step_invariant.
Qed.

(** Two pairs whose project names hold no colon have the same key only when
    they are the same pair. *)
Lemma cacheKey_inj p e p' e' :
  has_colon p = false → has_colon p' = false →
  cacheKey p e = cacheKey p' e' → p = p' ∧ e = e'.
Proof.
  unfold cacheKey. revert p'.
  induction p as [| a p IH]; intros [| a' p'] Hc Hc';
    repeat (rewrite append_nil_l || rewrite append_cons_l); simpl in Hc, Hc'.
  - by intros [= ->].
  - intros [= <- _]. by rewrite Ascii.eqb_refl in Hc'.
  - intros [= -> _]. by rewrite Ascii.eqb_refl in Hc.
  - intros [= -> Heq].
    apply orb_false_iff in Hc as [_ Hc]. apply orb_false_iff in Hc' as [_ Hc'].
    by destruct (IH _ Hc Hc' Heq) as [-> ->].
Qed.

(** So for project names without a colon the cache holds a pair exactly when a
    [get] for that very pair has resolved since the last [clearCache]. *)
Lemma run_cache_pairs c calls p e :
  cache c = ∅ →
  has_colon p = false →
  (∀ p' e', (p', e') ∈ (run c calls).2 → has_colon p' = false) →
  is_Some (cache (run c calls).1 !! cacheKey p e) ↔ (p, e) ∈ (run c calls).2.
Proof.
  intros Hempty Hp Hall. rewrite (run_cache_keys c calls Hempty). split.
  - intros (p' & e' & Hin & Hkey).
    by destruct (cacheKey_inj _ _ _ _ (Hall _ _ Hin) Hp Hkey) as [<- <-].
  - intros Hin. by exists p, e.
Qed.

(** ** The cases of test/client.test.ts, evaluated *)

Example constructor_accepts_key :
  new_EzEnv (MkConfig "ezenv_test123" None) = Ok test_client.
Proof. reflexivity. Qed.

Example constructor_rejects_missing_key :
  new_EzEnv (MkConfig "" None) = Err (ValidationError "API key is required").
Proof. reflexivity. Qed.

Example constructor_rejects_bad_format :
  new_EzEnv (MkConfig "invalid_key" None) = Err (ValidationError "Invalid API key format").
Proof. reflexivity. Qed.

Example get_fetches_secrets :
  (get test_client "my-project" "production" None
     (mockSecrets {["DATABASE_URL" := "postgres://localhost:5432/db";
                    "API_KEY" := "test-api-key"]})).1.1
  = Ok (Some {["DATABASE_URL" := "postgres://localhost:5432/db";
               "API_KEY" := "test-api-key"]}).
Proof. reflexivity. Qed.

Example get_request_shape :
  secrets_request test_client "my-project" "production"
  = {| url := "https://ezenv.dev/api/v1/secrets";
       method := "POST";
       headers := [("Authorization", "Bearer ezenv_test123");
                   ("Content-Type", "application/json")];
       body := MkBody "my-project" "production" |}.
Proof. reflexivity. Qed.

Example get_401 :
  (get test_client "project" "env" None (mockFailure 401 (Some "Invalid API key"))).1.1
  = Err (AuthError "Invalid API key").
Proof. reflexivity. Qed.

Example get_403_default :
  (get test_client "project" "env" None (mockFailure 403 None)).1.1
  = Err (AuthError "Permission denied").
Proof. reflexivity. Qed.

Example get_404 :
  (get test_client "project" "env" None (mockFailure 404 (Some "Project not found"))).1.1
  = Err (NotFoundError "Project not found").
Proof. reflexivity. Qed.

Example get_500_default :
  (get test_client "project" "env" None (mockFailure 500 (Some ""))).1.1
  = Err (BaseError "Failed to fetch secrets").
Proof. reflexivity. Qed.

Example get_network_error :
  (get test_client "project" "env" None
     (mockRejectedValue (ThrownOther (Some "Error") (Some "Failed to fetch")))).1.1
  = Err (NetworkError "Failed to connect to EzEnv API").
Proof. reflexivity. Qed.

Example get_timeout :
  (get test_client "project" "env" None
     (mockRejectedValue (ThrownOther (Some "AbortError") (Some "AbortError")))).1.1
  = Err (NetworkError "Request timeout").
Proof. reflexivity. Qed.

Example get_bad_json_on_200 :
  (get test_client "project" "env" None
     (mockBadBody 200 (ThrownOther (Some "SyntaxError") None))).1.1
  = Err (NetworkError "Network error occurred").
Proof. reflexivity. Qed.

Example run_caches_then_clears :
  let calls := [CallGet "project" "env" None (mockSecrets {["KEY" := "value"]});
                CallGet "project" "env" None mockUnused] in
  getCacheSize (run test_client calls).1 = 1%nat
  ∧ (run test_client calls).2 = [("project", "env"); ("project", "env")]
  ∧ getCacheSize (run test_client (calls ++ [CallClearCache])).1 = 0%nat.
Proof. repeat split. Qed.

Example load_overrides_with_option :
  (load test_client "project" "env" (Some (MkOptions None None (Some true)))
     (mockSecrets {["EXISTING_VAR" := "new-value"]})
     {["EXISTING_VAR" := "original-value"]}).1.2
  = {["EXISTING_VAR" := "new-value"]}.
Proof. reflexivity. Qed.

Example load_keeps_existing_by_default :
  (load test_client "project" "env" None
     (mockSecrets {["EXISTING_VAR" := "new-value"; "NEW_VAR" := "new-value"]})
     {["EXISTING_VAR" := "original-value"]}).1.2
  = {["EXISTING_VAR" := "original-value"; "NEW_VAR" := "new-value"]}.
Proof. reflexivity. Qed.

Example load_entry_on_special_names :
  load_entries (Some (MkOptions None None (Some true)))
    [("", "a"); ("A=B", "b"); ("toString", "c")] ∅
  = {["toString" := "c"]}
  ∧ load_entries None [("", "a"); ("A=B", "b"); ("toString", "c")] ∅ = ∅.
Proof. split; reflexivity. Qed.

Example load_rejected_leaves_env :
  load test_client "project" "env" None (mockFailure 401 None)
       {["EXISTING_VAR" := "original-value"]}
  = (Err (AuthError "Invalid API key"), test_client,
     {["EXISTING_VAR" := "original-value"]},
     [SetTimeout 30000; Fetch (secrets_request test_client "project" "env");
      ClearTimeout]).
Proof. reflexivity. Qed.

(** ** Further properties of client.ts *)

(** X1: the constructor accepts a configuration exactly when the key starts
    with [ezenv_]; the client then holds that key, the given base URL, or the
    default one when none or the empty string is given, and an empty cache.
    It refuses the empty key with [API key is required] and any other key
    with [Invalid API key format]. *)
Theorem new_EzEnv_outcome cfg :
  match new_EzEnv cfg with
  | Ok c =>
      String.prefix "ezenv_" (config_apiKey cfg) = true
      ∧ apiKey c = config_apiKey cfg
      ∧ baseUrl c =
          match config_baseUrl cfg with
          | Some u => if decide (u = "") then "https://ezenv.dev" else u
          | None => "https://ezenv.dev"
          end
      ∧ getCacheSize c = 0%nat
  | Err err =>
      String.prefix "ezenv_" (config_apiKey cfg) = false
      ∧ err = ValidationError (if decide (config_apiKey cfg = "")
                               then "API key is required"
                               else "Invalid API key format")
  | RawTypeError _ => False
  end.
Proof.
  unfold new_EzEnv. destruct cfg as [k u]. simpl.
  destruct (truthy_string k) eqn:Hk; simpl.
  - apply truthy_string_true in Hk.
    destruct (String.prefix "ezenv_" k) eqn:Hpre; simpl.
    + repeat split. destruct u as [u |]; [| done]. simpl.
      destruct (truthy_string u) eqn:Hu.
      * apply truthy_string_true in Hu. by rewrite decide_False.
      * apply truthy_string_false in Hu. by rewrite decide_True.
    + split; [done |]. by rewrite decide_False.
  - apply truthy_string_false in Hk. subst k. split; [done |]. by rewrite decide_True.
Qed.

(** X2: [clearCache] leaves a cache of size 0 and is idempotent, and the next
    [get] for any pair of non-empty names goes to the network, with the
    client's key and base URL, whatever was cached before. *)
Theorem clearCache_forces_fetch c p e o net :
  p ≠ "" → e ≠ "" →
  getCacheSize (clearCache c) = 0%nat
  ∧ clearCache (clearCache c) = clearCache c
  ∧ ∃ res c' rest,
      get (clearCache c) p e o net
        = (res, c', SetTimeout (timer_delay o) :: Fetch (secrets_request c p e) :: rest)
      ∧ network_calls (get (clearCache c) p e o net).2 = 1%nat.
Proof.
  intros Hp He. split; [done |]. split; [done |].
  rewrite (get_enters_try (clearCache c) p e o net Hp He (or_intror (lookup_empty _))).
  unfold get_try.
  change (secrets_request (clearCache c) p e) with (secrets_request c p e).
  destruct (net _ _) as [t | r]; [by eexists _, _, _ |].
  destruct (json r); [by eexists _, _, _ |].
  destruct (negb (ok r)); by eexists _, _, _.
Qed.

Lemma clearCache_forces_fetch_witness :
  getCacheSize (clearCache (test_client_with "project" "env" {["KEY" := "value"]}))
    = 0%nat
  ∧ clearCache (clearCache (test_client_with "project" "env" {["KEY" := "value"]}))
    = clearCache (test_client_with "project" "env" {["KEY" := "value"]})
  ∧ ∃ res c' rest,
      get (clearCache (test_client_with "project" "env" {["KEY" := "value"]}))
          "project" "env" None (mockSecrets {["KEY" := "fresh"]})
        = (res, c',
           SetTimeout (timer_delay None)
             :: Fetch (secrets_request
                         (test_client_with "project" "env" {["KEY" := "value"]})
                         "project" "env")
             :: rest)
      ∧ network_calls
          (get (clearCache (test_client_with "project" "env" {["KEY" := "value"]}))
               "project" "env" None (mockSecrets {["KEY" := "fresh"]})).2 = 1%nat.
Proof.
  apply (clearCache_forces_fetch
           (test_client_with "project" "env" {["KEY" := "value"]})
           "project" "env" None (mockSecrets {["KEY" := "fresh"]})).
  - discriminate.
  - discriminate.
Defined.

(** The cache after a [get]: as before, or with the key of the pair set. *)
Lemma get_cache_after c p e o net :
  (get c p e o net).1.2 = c
  ∨ ∃ s, (get c p e o net).1.1 = Ok s
         ∧ (get c p e o net).1.2
           = {| apiKey := apiKey c; baseUrl := baseUrl c;
                cache := <[cacheKey p e := s]> (cache c) |}.
Proof.
  unfold get.
  destruct (negb (truthy_string p)); [by left |].
  destruct (negb (truthy_string e)); [by left |].
  destruct (if negb _ then _ else _); [by left |].
  unfold get_try.
  destruct (net _ _) as [t | r]; [by left |].
  destruct (json r) as [t | d]; [by left |].
  destruct (negb (ok r)); [by left |].
  right. by eexists.
Qed.

(** X3: a [get] touches no entry of the cache but the one under the key of
    its pair, never removes an entry, keeps the key and the base URL of the
    client, and so leaves the size of the cache as it was or one larger. *)
Theorem get_frame c p e o net :
  (∀ k, k ≠ cacheKey p e →
     cache (get c p e o net).1.2 !! k = cache c !! k)
  ∧ (∀ k, is_Some (cache c !! k) → is_Some (cache (get c p e o net).1.2 !! k))
  ∧ apiKey (get c p e o net).1.2 = apiKey c
  ∧ baseUrl (get c p e o net).1.2 = baseUrl c
  ∧ (getCacheSize c ≤ getCacheSize (get c p e o net).1.2 ≤ S (getCacheSize c))%nat.
Proof.
  destruct (get_cache_after c p e o net) as [-> | (s & _ & ->)].
  { repeat split; auto with lia. }
  simpl. repeat split.
  - intros k Hk. by rewrite lookup_insert_ne.
  - intros k Hk. rewrite lookup_insert. by case_decide.
  - unfold getCacheSize. simpl. rewrite map_size_insert.
    destruct (cache c !! cacheKey p e); simpl; lia.
  - unfold getCacheSize. simpl. rewrite map_size_insert.
    destruct (cache c !! cacheKey p e); simpl; lia.
Qed.

(** X4: when a [get] for a cached pair of non-empty names is rejected, which
    takes [noCache], the client is unchanged, so the old bundle stays cached
    and a later [get] without [noCache] still resolves with it, without any
    network request. *)
Theorem get_failed_refresh_keeps_entry c p e o net old err c' evs :
  p ≠ "" → e ≠ "" →
  cache c !! cacheKey p e = Some old →
  get c p e o net = (Err err, c', evs) →
  c' = c
  ∧ truthy_flag (o ≫= noCache) = true
  ∧ ∀ o2 net2,
      truthy_flag (o2 ≫= noCache) = false →
      get c' p e o2 net2 = (Ok old, c', []).
Proof.
  intros Hp He Hold Hget.
  pose proof (get_err_client _ _ _ _ _ _ _ _ Hget) as ->.
  split; [done |]. split.
  - destruct (truthy_flag (o ≫= noCache)) eqn:Hflag; [done |].
    by rewrite (get_hit _ _ _ _ _ _ Hp He Hflag Hold) in Hget.
  - intros o2 net2 Hflag. by apply get_hit.
Qed.

Lemma get_failed_refresh_keeps_entry_witness :
  test_client_with "project" "env" {["KEY" := "value"]}
    = test_client_with "project" "env" {["KEY" := "value"]}
  ∧ truthy_flag (Some (MkOptions (Some true) None None) ≫= noCache) = true
  ∧ ∀ o2 net2,
      truthy_flag (o2 ≫= noCache) = false →
      get (test_client_with "project" "env" {["KEY" := "value"]}) "project" "env" o2 net2
      = (Ok (Some {["KEY" := "value"]}),
         test_client_with "project" "env" {["KEY" := "value"]}, []).
Proof.
  apply (get_failed_refresh_keeps_entry
           (test_client_with "project" "env" {["KEY" := "value"]})
           "project" "env" (Some (MkOptions (Some true) None None))
           (mockFailure 500 None) (Some {["KEY" := "value"]})
           (BaseError "Failed to fetch secrets")
           (test_client_with "project" "env" {["KEY" := "value"]})
           [SetTimeout 30000;
            Fetch (secrets_request
                     (test_client_with "project" "env" {["KEY" := "value"]})
                     "project" "env");
            ClearTimeout]).
  - discriminate.
  - discriminate.
  - reflexivity.
  - reflexivity.
Defined.

(** The effects of a [get], case by case. *)
Lemma get_events c p e o net :
  (get c p e o net).2 =
    if negb (truthy_string p) || negb (truthy_string e)
       || (negb (truthy_flag (o ≫= noCache))
           && bool_decide (is_Some (cache c !! cacheKey p e)))
    then []
    else match net (secrets_request c p e) (timer_delay o) with
         | FetchRejects _ =>
             [SetTimeout (timer_delay o); Fetch (secrets_request c p e)]
         | FetchResolves _ =>
             [SetTimeout (timer_delay o); Fetch (secrets_request c p e); ClearTimeout]
         end.
Proof.
  unfold get.
  destruct (negb (truthy_string p)); [done |].
  destruct (negb (truthy_string e)); [done |]. simpl.
  destruct (negb (truthy_flag (o ≫= noCache))); simpl.
  - destruct (cache c !! cacheKey p e) as [b |] eqn:Hb.
    + by rewrite bool_decide_true.
    + rewrite bool_decide_false; [| by intros [? [=]]].
      unfold get_try. destruct (net _ _) as [t | r]; [done |].
      destruct (json r); [done |]. by destruct (negb (ok r)).
  - unfold get_try. destruct (net _ _) as [t | r]; [done |].
    destruct (json r); [done |]. by destruct (negb (ok r)).
Qed.

(** X5: a [get] issues at most one network request, and none exactly when a
    name is empty or the pair is cached and [noCache] is not set: there is no
    retry, whatever the network does. *)
Theorem get_one_request_at_most c p e o net :
  (network_calls (get c p e o net).2 ≤ 1)%nat
  ∧ (network_calls (get c p e o net).2 = 0%nat
     ↔ p = "" ∨ e = ""
       ∨ (truthy_flag (o ≫= noCache) = false ∧ is_Some (cache c !! cacheKey p e))).
Proof.
  rewrite get_events.
  destruct (truthy_string p) eqn:Hp; simpl.
  2:{ apply truthy_string_false in Hp. split; [by apply Nat.le_0_l | by split; auto]. }
  destruct (truthy_string e) eqn:He; simpl.
  2:{ apply truthy_string_false in He. split; [by apply Nat.le_0_l | by split; auto]. }
  apply truthy_string_true in Hp, He.
  destruct (truthy_flag (o ≫= noCache)) eqn:Hflag; simpl.
  - destruct (net _ _); (split; [done |]); (split; [done |]);
      intros [? | [? | [? _]]]; done.
  - case_bool_decide as Hc; simpl.
    + split; [by apply Nat.le_0_l |]. split; [| done]. intros _. right. right. done.
    + destruct (net _ _); (split; [done |]); (split; [done |]);
        intros [? | [? | [_ ?]]]; done.
Qed.

(** X6: the effects of a [get] are none at all, or the timer armed with the
    [timeout] of the options, 30000 when that is absent or 0, and then the
    one request for the pair of the call; the timer is cleared, after the
    request, exactly when [fetch] resolves: when [fetch] rejects, the timer
    is left armed. *)
Theorem get_timer_cleared_iff_response c p e o net :
  let d := match o ≫= timeout with
           | Some t => if decide (t = 0) then 30000 else t
           | None => 30000
           end in
  (get c p e o net).2 = []
  ∨ ((get c p e o net).2 = [SetTimeout d; Fetch (secrets_request c p e)]
     ∧ ∃ t, net (secrets_request c p e) d = FetchRejects t)
  ∨ ((get c p e o net).2 = [SetTimeout d; Fetch (secrets_request c p e); ClearTimeout]
     ∧ ∃ r, net (secrets_request c p e) d = FetchResolves r).
Proof.
  intros d.
  assert (timer_delay o = d) as Hd.
  { unfold timer_delay, number_or, d. destruct (o ≫= timeout) as [t |]; [| done].
    destruct (Z.eqb_spec t 0) as [-> | Hne]; [done |]. by rewrite decide_False. }
  rewrite get_events, Hd.
  destruct (_ || _); [by left |].
  destruct (net _ _) as [t | r]; right; [left | right]; split; eauto.
Qed.

Example get_arms_timer_with_option :
  (get test_client "project" "env" (Some (MkOptions None (Some 5000) None))
     (mockRejectedValue (ThrownOther (Some "AbortError") None))).2
  = [SetTimeout 5000; Fetch (secrets_request test_client "project" "env")].
Proof. reflexivity. Qed.

Lemma plain_name_spec (n : string) :
  plain_name n = true →
  refused_name n = false ∧ c_string n = n ∧ n ∉ Object_prototype.
Proof.
  unfold plain_name. intros [[Href Hnul]%andb_true_iff Hproto]%andb_true_iff.
  apply negb_true_iff in Href, Hnul, Hproto.
  split; [done |]. split; [by apply c_string_nul_free |].
  by apply bool_decide_eq_false in Hproto.
Qed.

(** X7: after a [load] whose fetch resolved with a bundle of plain names and
    values (names that are not empty, hold no equals sign and no NUL
    character and are not inherited by [process.env]; values without a NUL
    character), [process.env] is the union of the old environment and the
    bundle, in which the bundle wins on the common keys when [override] is
    [true] and the environment wins otherwise; so its variables are the old
    ones and the keys of the bundle. *)
Theorem load_env_is_union c p e o net (env : ProcessEnv) (s : Bundle) c' evs :
  get c p e o net = (Ok (Some s), c', evs) →
  map_Forall (λ k v, plain_name k = true ∧ plain_value v = true) s →
  load c p e o net env
    = (Ok tt, c', (if decide (o ≫= override = Some true) then s ∪ env else env ∪ s), evs)
  ∧ dom (load c p e o net env).1.2 = dom env ∪ dom s.
Proof.
  intros Hget Hplain.
  assert (map_Forall (λ k' _, JS.includes k' "000" = false) s) as Hkeys.
  { intros k v Hk. destruct (Hplain k v Hk) as [Hname _].
    unfold plain_name in Hname.
    apply andb_true_iff in Hname as [[_ Hnul]%andb_true_iff _].
    by apply negb_true_iff in Hnul. }
  assert (load_entries o (entries s) env
          = if decide (o ≫= override = Some true) then s ∪ env else env ∪ s) as Hunion.
  { apply map_eq. intros k. rewrite (load_entries_bundle _ _ _ _ Hkeys).
    destruct (s !! k) as [v |] eqn:Hk.
    - destruct (Hplain k v Hk) as [Hname Hvalue].
      destruct (plain_name_spec k Hname) as (Href & Hck & Hproto).
      apply negb_true_iff in Hvalue.
      rewrite Href, (c_string_nul_free v Hvalue).
      unfold env_defined. rewrite Hck, (bool_decide_false (k ∈ Object_prototype)) by done.
      rewrite orb_false_r.
      case_decide as Hov.
      + apply truthy_flag_true in Hov. rewrite Hov. simpl.
        by rewrite lookup_union, Hk; destruct (env !! k).
      + destruct (truthy_flag (o ≫= override)) eqn:Hflag.
        { by apply truthy_flag_true in Hflag. }
        simpl. rewrite lookup_union, Hk.
        destruct (env !! k) as [x |] eqn:Hx.
        * by rewrite bool_decide_true.
        * by rewrite bool_decide_false by (by intros [? [=]]).
    - case_decide; rewrite lookup_union, Hk; by destruct (env !! k). }
  unfold load. rewrite Hget, Hunion. split; [done |]. simpl.
  case_decide; rewrite dom_union_L; [apply (comm_L (∪)) | done].
Qed.

Lemma load_env_is_union_witness :
  load test_client "project" "env" (Some (MkOptions None None (Some true)))
       (mockSecrets {["EXISTING_VAR" := "new-value"; "NEW_VAR" := "new-value"]})
       {["EXISTING_VAR" := "original-value"; "HOME" := "/root"]}
    = (Ok tt,
       test_client_with "project" "env"
         {["EXISTING_VAR" := "new-value"; "NEW_VAR" := "new-value"]},
       (if decide (Some (MkOptions None None (Some true)) ≫= override = Some true)
        then {["EXISTING_VAR" := "new-value"; "NEW_VAR" := "new-value"]}
               ∪ {["EXISTING_VAR" := "original-value"; "HOME" := "/root"]}
        else {["EXISTING_VAR" := "original-value"; "HOME" := "/root"]}
               ∪ {["EXISTING_VAR" := "new-value"; "NEW_VAR" := "new-value"]}),
       [SetTimeout 30000; Fetch (secrets_request test_client "project" "env");
        ClearTimeout])
  ∧ dom (load test_client "project" "env" (Some (MkOptions None None (Some true)))
           (mockSecrets {["EXISTING_VAR" := "new-value"; "NEW_VAR" := "new-value"]})
           {["EXISTING_VAR" := "original-value"; "HOME" := "/root"]}).1.2
    = dom ({["EXISTING_VAR" := "original-value"; "HOME" := "/root"]} : ProcessEnv)
      ∪ dom ({["EXISTING_VAR" := "new-value"; "NEW_VAR" := "new-value"]} : Bundle).
Proof.
  apply (load_env_is_union test_client "project" "env"
           (Some (MkOptions None None (Some true)))
           (mockSecrets {["EXISTING_VAR" := "new-value"; "NEW_VAR" := "new-value"]})
           {["EXISTING_VAR" := "original-value"; "HOME" := "/root"]}).
  - reflexivity.
  - apply map_Forall_to_list. vm_compute. repeat constructor.
Defined.

Example load_union_under_override :
  (load test_client "project" "env" (Some (MkOptions None None (Some true)))
     (mockSecrets {["EXISTING_VAR" := "new-value"; "NEW_VAR" := "new-value"]})
     {["EXISTING_VAR" := "original-value"; "HOME" := "/root"]}).1.2
  = {["EXISTING_VAR" := "new-value"; "NEW_VAR" := "new-value"; "HOME" := "/root"]}.
Proof. reflexivity. Qed.

(** Under [override], the loop is a sequence of assignments. *)
Lemma load_entries_override_union o (l : list (string * string)) (env : ProcessEnv) :
  truthy_flag (o ≫= override) = true →
  load_entries o l env = load_entries o l ∅ ∪ env.
Proof.
  intros Hflag. unfold load_entries.
  induction l as [| [k v] l IH] using rev_ind.
  { simpl. by rewrite (left_id_L ∅ (∪)). }
  rewrite !foldl_app. simpl. rewrite IH.
  unfold load_entry, env_assign. rewrite Hflag. simpl.
  destruct (refused_name _); [done |]. by rewrite insert_union_l.
Qed.

Lemma env_defined_mono (env env' : ProcessEnv) k :
  env ⊆ env' → env_defined env k = true → env_defined env' k = true.
Proof.
  intros Hsub. unfold env_defined.
  intros [Hset | Hproto]%orb_true_iff; apply orb_true_iff; [left | by right].
  apply bool_decide_eq_true in Hset as [x Hx]. apply bool_decide_eq_true.
  exists x. by apply (lookup_weaken env env').
Qed.

Lemma load_entry_settles o (env : ProcessEnv) k v :
  truthy_flag (o ≫= override) = false →
  env_defined (load_entry o env (k, v)) k = true ∨ refused_name (c_string k) = true.
Proof.
  intros Hflag. unfold load_entry, env_assign. rewrite Hflag. simpl.
  destruct (env_defined env k) eqn:Hdef; [by left |].
  destruct (refused_name (c_string k)) eqn:Href; [by right |].
  left. unfold env_defined. by rewrite lookup_insert_eq, bool_decide_true.
Qed.

Lemma load_entry_noop o (env : ProcessEnv) k v :
  truthy_flag (o ≫= override) = false →
  env_defined env k = true ∨ refused_name (c_string k) = true →
  load_entry o env (k, v) = env.
Proof.
  intros Hflag Hsettled. unfold load_entry, env_assign. rewrite Hflag. simpl.
  destruct Hsettled as [-> | ->]; [done |]. by destruct (env_defined env k).
Qed.

(** Without [override], after the loop every entry is settled: its name
    reads as defined, or is refused. *)
Lemma load_entries_settled o (l : list (string * string)) (env : ProcessEnv) k v :
  truthy_flag (o ≫= override) = false → (k, v) ∈ l →
  env_defined (load_entries o l env) k = true ∨ refused_name (c_string k) = true.
Proof.
  intros Hflag. unfold load_entries.
  induction l as [| [k0 v0] l IH] using rev_ind; intros Hin.
  { by apply elem_of_nil in Hin. }
  rewrite foldl_app. simpl.
  apply elem_of_app in Hin as [Hin | [= <- <-]%list_elem_of_singleton].
  - destruct (IH Hin) as [Hdef | Href]; [| by right]. left.
    by apply (env_defined_mono _ _ _ (load_entry_grows o _ (k0, v0) Hflag)).
  - by apply load_entry_settles.
Qed.

(** The loop of [load], run again on its own result, changes nothing. *)
Lemma load_entries_twice o (l : list (string * string)) (env : ProcessEnv) :
  load_entries o l (load_entries o l env) = load_entries o l env.
Proof.
  destruct (truthy_flag (o ≫= override)) eqn:Hflag.
  - rewrite (load_entries_override_union o l (load_entries o l env) Hflag).
    rewrite (load_entries_override_union o l env Hflag).
    by rewrite (assoc_L (∪)), (idemp_L (∪)).
  - assert (∀ l', (∀ kv, kv ∈ l' → kv ∈ l) →
              load_entries o l' (load_entries o l env) = load_entries o l env) as Hnoop.
    { induction l' as [| [k v] l' IH] using rev_ind; intros Hsub; [done |].
      unfold load_entries in *. rewrite foldl_app. simpl.
      rewrite IH by (intros kv Hkv; apply Hsub, elem_of_app; by left).
      assert ((k, v) ∈ l) as Hin.
      { apply Hsub, elem_of_app. right. by apply list_elem_of_singleton. }
      apply (load_entry_noop o _ k v Hflag).
      exact (load_entries_settled o l env k v Hflag Hin). }
    by apply Hnoop.
Qed.

(** X8: a [load] that succeeded can be repeated without [noCache]: the second
    call is served from the cache, issues no network request, and leaves
    [process.env] and the client exactly as the first call left them. *)
Theorem load_twice_changes_nothing c p e o net (env env1 : ProcessEnv) c1 evs net2 :
  load c p e o net env = (Ok tt, c1, env1, evs) →
  truthy_flag (o ≫= noCache) = false →
  load c1 p e o net2 env1 = (Ok tt, c1, env1, []).
Proof.
  unfold load at 1.
  destruct (get c p e o net) as [[[[s |] | err | m] c'] evs'] eqn:Hget;
    [| by intros [=] ..].
  intros [= -> <- ->] Hflag.
  destruct (get_ok_cached _ _ _ _ _ _ _ _ Hget) as (Hp & He & Hs).
  unfold load. rewrite (get_hit _ _ _ _ net2 _ Hp He Hflag Hs).
  by rewrite load_entries_twice.
Qed.

Lemma load_twice_changes_nothing_witness :
  load (test_client_with "project" "env" {["NEW_VAR" := "new-value"]})
       "project" "env" None mockUnused {["NEW_VAR" := "new-value"]}
  = (Ok tt, test_client_with "project" "env" {["NEW_VAR" := "new-value"]},
     {["NEW_VAR" := "new-value"]}, []).
Proof.
  apply (load_twice_changes_nothing test_client "project" "env" None
           (mockSecrets {["NEW_VAR" := "new-value"]}) ∅ {["NEW_VAR" := "new-value"]}
           (test_client_with "project" "env" {["NEW_VAR" := "new-value"]})
           [SetTimeout 30000; Fetch (secrets_request test_client "project" "env");
            ClearTimeout]
           mockUnused).
  - reflexivity.
  - reflexivity.
Defined.

(** The pairs recorded along a sequence of calls are pairs of its [get]s. *)
Lemma run_pairs_of_calls (P : string → Prop) c calls :
  Forall (λ call, match call with CallGet p _ _ _ => P p | CallClearCache => True end)
         calls →
  Forall (λ pe, P pe.1) (run c calls).2.
Proof.
  unfold run. induction calls as [| call calls IH] using rev_ind; intros Hall.
  { simpl. constructor. }
  apply Forall_app in Hall as [Hall Hcall]. rewrite Forall_singleton in Hcall.
  rewrite foldl_app. simpl.
  destruct (foldl step (c, []) calls) as [c0 pairs] eqn:Hrun. specialize (IH Hall).
  destruct call as [p e o net |]; simpl; [| constructor].
  destruct (get c0 p e o net) as [[[s | err | m] c'] evs]; simpl; [| exact IH ..].
  constructor; [exact Hcall | exact IH].
Qed.

(** X9: along any sequence of [get] and [clearCache] calls on a client that
    starts with an empty cache, when no project name contains a colon, the
    cache holds an entry under the key of a pair exactly when a [get] for
    that very pair has resolved since the last [clearCache]. *)
Theorem run_cache_holds_fetched_pairs c calls p e :
  cache c = ∅ →
  has_colon p = false →
  Forall (λ call, match call with
                  | CallGet p' _ _ _ => has_colon p' = false
                  | CallClearCache => True
                  end) calls →
  is_Some (cache (run c calls).1 !! cacheKey p e) ↔ (p, e) ∈ (run c calls).2.
Proof.
  intros Hempty Hp Hcalls. apply run_cache_pairs; [done | done |].
  intros p' e' Hin.
  pose proof (run_pairs_of_calls (λ q, has_colon q = false) c calls Hcalls) as Hall.
  rewrite Forall_forall in Hall. exact (Hall (p', e') Hin).
Qed.

Lemma run_cache_holds_fetched_pairs_witness :
  is_Some (cache (run test_client
                    [CallGet "project" "env" None (mockSecrets {["KEY" := "value"]});
                     CallGet "other" "env" None (mockFailure 404 None)]).1
           !! cacheKey "other" "env")
  ↔ ("other", "env")
      ∈ (run test_client
           [CallGet "project" "env" None (mockSecrets {["KEY" := "value"]});
            CallGet "other" "env" None (mockFailure 404 None)]).2.
Proof.
  apply (run_cache_holds_fetched_pairs test_client
           [CallGet "project" "env" None (mockSecrets {["KEY" := "value"]});
            CallGet "other" "env" None (mockFailure 404 None)] "other" "env").
  - reflexivity.
  - reflexivity.
  - repeat constructor.
Defined.

(** ** The string methods of utils.ts *)

Lemma append_nil_r (s : string) : s +:+ "" = s.
Proof. induction s as [| a s IH]; [done |]. by rewrite append_cons_l, IH. Qed.

Lemma append_assoc (s t u : string) : (s +:+ t) +:+ u = s +:+ t +:+ u.
Proof. induction s as [| a s IH]; [done |]. by rewrite !append_cons_l, IH. Qed.

Lemma includes_app (s t : string) a :
  JS.includes (s +:+ t) a = JS.includes s a || JS.includes t a.
Proof.
  induction s as [| b s IH]; [done |].
  rewrite append_cons_l. simpl. by rewrite IH, orb_assoc.
Qed.

(** A string without the separator is one piece. *)
Lemma split_pieces_none sep (s : string) :
  JS.includes s sep = false → JS.split_pieces sep s = (s, []).
Proof.
  induction s as [| a s IH]; [done |]. simpl.
  intros [Ha Hs]%orb_false_iff. by rewrite (IH Hs), Ha.
Qed.

(** The first piece ends at the first separator. *)
Lemma split_pieces_first sep (k v : string) :
  JS.includes k sep = false →
  JS.split_pieces sep (k +:+ String sep v) = (k, JS.split sep v).
Proof.
  induction k as [| a k IH].
  - intros _. rewrite append_nil_l. simpl. unfold JS.split.
    destruct (JS.split_pieces sep v) as [f r]. by rewrite Ascii.eqb_refl.
  - simpl. intros [Ha Hk]%orb_false_iff.
    rewrite ?append_cons_l. simpl. by rewrite (IH Hk), Ha.
Qed.

(** A string with the separator splits at its first occurrence. *)
Lemma includes_first sep (s : string) :
  JS.includes s sep = true →
  ∃ k v, s = k +:+ String sep v ∧ JS.includes k sep = false.
Proof.
  induction s as [| a s IH]; [done |]. simpl.
  destruct (Ascii.eqb a sep) eqn:Ha; simpl.
  - intros _. apply Ascii.eqb_eq in Ha as ->. by exists "", s.
  - intros (k & v & -> & Hk)%IH. exists (String a k), v.
    split; [done |]. simpl. by rewrite Ha.
Qed.

(** Splitting distributes over a separator. *)
Lemma split_app sep (a b : string) :
  JS.split sep (a +:+ String sep b) = (JS.split sep a ++ JS.split sep b)%list.
Proof.
  unfold JS.split. induction a as [| x a IH].
  - rewrite append_nil_l. simpl.
    destruct (JS.split_pieces sep b) as [f r]. by rewrite Ascii.eqb_refl.
  - rewrite append_cons_l. simpl.
    destruct (JS.split_pieces sep (a +:+ String sep b)) as [f r].
    destruct (JS.split_pieces sep a) as [fa ra].
    destruct (JS.split_pieces sep b) as [fb rb].
    simpl in IH. injection IH as -> ->.
    by destruct (Ascii.eqb x sep).
Qed.

(** Joining the pieces with the separator gives the string back. *)
Lemma join_split sep (s : string) :
  JS.join (String sep "") (JS.split sep s) = s.
Proof.
  unfold JS.split. induction s as [| a s IH]; [done |]. simpl.
  destruct (JS.split_pieces sep s) as [f r].
  destruct (Ascii.eqb a sep) eqn:Ha.
  - apply Ascii.eqb_eq in Ha as ->.
    change (JS.join (String sep "") ("" :: f :: r))
      with ("" +:+ String sep "" +:+ JS.join (String sep "") (f :: r)).
    by rewrite IH.
  - destruct r as [| g r]; simpl in *; [by rewrite IH |].
    rewrite append_cons_l. by rewrite IH.
Qed.

Lemma trimStart_head (s : string) a r :
  JS.trimStart s = String a r → JS.is_white a = false.
Proof.
  induction s as [| b s IH]; [done |]. simpl.
  destruct (JS.is_white b) eqn:Hb; [done |]. by intros [= <- _].
Qed.

Lemma trimEnd_head a (r : string) :
  JS.is_white a = false → ∃ r', JS.trimEnd (String a r) = String a r'.
Proof.
  intros Ha. simpl. destruct (JS.trimEnd r); [| by eexists].
  rewrite Ha. by eexists.
Qed.

(** Whether the trimmed string starts with a character that is no white
    space is decided by [trimStart] alone, and so is whether it is empty. *)
Lemma trim_head (s : string) :
  (JS.trimStart s = "" ∧ JS.trim s = "")
  ∨ ∃ a r r', JS.is_white a = false
              ∧ JS.trimStart s = String a r ∧ JS.trim s = String a r'.
Proof.
  unfold JS.trim. destruct (JS.trimStart s) as [| a r] eqn:Hs; [by left |].
  right. pose proof (trimStart_head _ _ _ Hs) as Ha.
  destruct (trimEnd_head a r Ha) as [r' Hr']. by exists a, r, r'.
Qed.

Lemma trimStart_app_nonwhite (k : string) a r :
  JS.is_white a = false →
  JS.trimStart (k +:+ String a r) = JS.trimStart k +:+ String a r.
Proof.
  intros Ha. induction k as [| b k IH].
  - rewrite append_nil_l. simpl. by rewrite Ha.
  - rewrite append_cons_l. simpl. by destruct (JS.is_white b).
Qed.

Lemma trimEnd_snoc_white (s : string) w :
  JS.is_white w = true → JS.trimEnd (s +:+ String w "") = JS.trimEnd s.
Proof.
  intros Hw. induction s as [| a s IH].
  - rewrite append_nil_l. simpl. by rewrite Hw.
  - rewrite append_cons_l. simpl. by rewrite IH.
Qed.

Lemma trimStart_snoc_white (s : string) w :
  JS.is_white w = true →
  JS.trimStart (s +:+ String w "")
  = if decide (JS.trimStart s = "") then "" else JS.trimStart s +:+ String w "".
Proof.
  intros Hw. induction s as [| a s IH].
  - rewrite append_nil_l. simpl. by rewrite Hw.
  - rewrite append_cons_l. simpl. destruct (JS.is_white a); [done |].
    by rewrite decide_False.
Qed.

(** White space at the end does not survive [trim]. *)
Lemma trim_snoc_white (s : string) w :
  JS.is_white w = true → JS.trim (s +:+ String w "") = JS.trim s.
Proof.
  intros Hw. unfold JS.trim. rewrite (trimStart_snoc_white _ _ Hw).
  case_decide as Hs; [by rewrite Hs |]. by apply trimEnd_snoc_white.
Qed.

(** ** parseEnvFile *)

(** A line leaves the object as it is or sets one property. *)
Lemma parseEnvFile_line_cases (line : string) :
  (∀ m, parseEnvFile_line m line = m)
  ∨ (∃ k v, ∀ m : FileConfig, parseEnvFile_line m line = <[k := v]> m).
Proof.
  unfold parseEnvFile_line.
  destruct (_ || _); [by left |].
  destruct (JS.split_pieces "=" line) as [key valueParts].
  destruct (_ && _); [| by left].
  unfold set_property. case_decide; [by left |]. right. by eexists _, _.
Qed.

(** What the earlier lines have set is overridden by the later lines only. *)
Lemma parseEnvFile_lines_union (lines : list string) (m : FileConfig) :
  foldl parseEnvFile_line m lines = foldl parseEnvFile_line ∅ lines ∪ m.
Proof.
  induction lines as [| line lines IH] using rev_ind.
  { simpl. by rewrite (left_id_L ∅ (∪)). }
  rewrite !foldl_app. simpl. rewrite IH.
  destruct (parseEnvFile_line_cases line) as [H | (k & v & H)]; rewrite !H; [done |].
  by rewrite insert_union_l.
Qed.

(** A string without a line feed is parsed as one line. *)
Lemma parseEnvFile_one_line (line : string) :
  JS.includes line LF = false → parseEnvFile line = parseEnvFile_line ∅ line.
Proof.
  intros Hline. unfold parseEnvFile, JS.split.
  by rewrite (split_pieces_none _ _ Hline).
Qed.

Lemma startsWith_hash_cons a (r : string) :
  JS.startsWith (String a r) "#" = bool_decide (a = "#"%char).
Proof.
  change (JS.startsWith (String a r) "#")
    with (if ascii_dec "#" a then String.prefix "" r else false).
  destruct (ascii_dec "#" a) as [<- | Hne].
  - rewrite bool_decide_true by done. by destruct r.
  - by rewrite bool_decide_false by congruence.
Qed.

Lemma startsWith_eq_cons a (r : string) :
  JS.startsWith (String a r) "=" = bool_decide (a = "="%char).
Proof.
  change (JS.startsWith (String a r) "=")
    with (if ascii_dec "=" a then String.prefix "" r else false).
  destruct (ascii_dec "=" a) as [<- | Hne].
  - rewrite bool_decide_true by done. by destruct r.
  - by rewrite bool_decide_false by congruence.
Qed.

(** A line without an equals sign sets nothing. *)
Lemma parseEnvFile_line_no_eq (m : FileConfig) (line : string) :
  JS.includes line "=" = false → parseEnvFile_line m line = m.
Proof.
  intros Hline. unfold parseEnvFile_line.
  destruct (_ || _); [done |].
  rewrite (split_pieces_none _ _ Hline). simpl. by rewrite andb_false_r.
Qed.

(** A line with an equals sign, split at the first one. *)
Lemma parseEnvFile_line_eq (m : FileConfig) (k v : string) :
  JS.includes k "=" = false →
  parseEnvFile_line m (k +:+ String "=" v) =
    if JS.startsWith (JS.trimStart k) "#" then m
    else if truthy_string k
         then set_property m (JS.trim k) (remove_quotes (JS.trim v))
         else m.
Proof.
  intros Hk. unfold parseEnvFile_line.
  destruct (trim_head (k +:+ String "=" v)) as [[Hs _] | (a & r & r' & Ha & Hs & Ht)].
  { rewrite trimStart_app_nonwhite in Hs by done.
    by destruct (JS.trimStart k). }
  rewrite Ht, startsWith_hash_cons.
  assert (bool_decide (a = "#"%char) = JS.startsWith (JS.trimStart k) "#") as ->.
  { rewrite trimStart_app_nonwhite in Hs by done.
    destruct (JS.trimStart k) as [| b k'].
    - rewrite append_nil_l in Hs. by injection Hs as <- _.
    - rewrite append_cons_l in Hs. injection Hs as <- _.
      by rewrite startsWith_hash_cons. }
  destruct (JS.startsWith (JS.trimStart k) "#"); [done |]. simpl.
  rewrite (split_pieces_first _ _ _ Hk).
  rewrite (join_split "=" v).
  unfold JS.split. destruct (JS.split_pieces "=" v) as [f rest].
  simpl. by rewrite andb_true_r.
Qed.

(** Parsing distributes over a line feed, the later lines winning. *)
Lemma parseEnvFile_lf (a b : string) :
  parseEnvFile (a +:+ String LF b) = parseEnvFile b ∪ parseEnvFile a.
Proof.
  unfold parseEnvFile. rewrite split_app, foldl_app.
  apply parseEnvFile_lines_union.
Qed.

(** X10: parsing two contents joined by a line feed gives the properties of
    both, those of the second content winning on the common keys: a later
    line overrides an earlier one, and nothing else is lost. *)
Theorem parseEnvFile_concat (a b : string) :
  parseEnvFile (a +:+ String LF b) = parseEnvFile b ∪ parseEnvFile a
  ∧ ∀ k, parseEnvFile (a +:+ String LF b) !! k =
           match parseEnvFile b !! k with
           | Some v => Some v
           | None => parseEnvFile a !! k
           end.
Proof.
  split; [apply parseEnvFile_lf |].
  intros k. rewrite parseEnvFile_lf, lookup_union.
  by destruct (parseEnvFile b !! k), (parseEnvFile a !! k).
Qed.

(** X11: a file of the one line [k=v], where [k] holds no equals sign, is
    not empty and does not start a comment, gives exactly one property: its
    name is [k] trimmed, and its value is all that follows the first equals
    sign, further equals signs included, trimmed and then without one quote
    at each end. *)
Theorem parseEnvFile_assignment (k v : string) :
  JS.includes k "=" = false →
  JS.includes k LF = false → JS.includes v LF = false →
  k ≠ "" →
  JS.startsWith (JS.trimStart k) "#" = false →
  JS.trim k ≠ "__proto__" →
  parseEnvFile (k +:+ String "=" v) = {[JS.trim k := remove_quotes (JS.trim v)]}.
Proof.
  intros Hk Hk_lf Hv_lf Hne Hhash Hproto.
  rewrite parseEnvFile_one_line.
  2:{ rewrite includes_app. simpl. by rewrite Hk_lf, Hv_lf. }
  rewrite (parseEnvFile_line_eq _ _ _ Hk), Hhash.
  apply truthy_string_true in Hne as ->.
  unfold set_property. rewrite decide_False by done. apply insert_empty.
Qed.

Lemma parseEnvFile_assignment_witness :
  parseEnvFile ("EZENV_BASE_URL" +:+ String "=" " 'https://api.custom.com/?a=b' ")
  = {[JS.trim "EZENV_BASE_URL" := remove_quotes (JS.trim " 'https://api.custom.com/?a=b' ")]}.
Proof.
  apply (parseEnvFile_assignment "EZENV_BASE_URL" " 'https://api.custom.com/?a=b' ").
  - reflexivity.
  - reflexivity.
  - reflexivity.
  - discriminate.
  - reflexivity.
  - discriminate.
Defined.

(** A line that is blank, a comment, without an equals sign or without a
    name sets nothing. *)
Lemma parseEnvFile_line_ignored (m : FileConfig) (line : string) :
  JS.trim line = ""
  ∨ JS.startsWith (JS.trim line) "#" = true
  ∨ JS.includes line "=" = false
  ∨ JS.startsWith line "=" = true →
  parseEnvFile_line m line = m.
Proof.
  intros [Hblank | [Hhash | [Hnoeq | Hnokey]]].
  - unfold parseEnvFile_line. rewrite Hblank. by rewrite orb_true_r.
  - unfold parseEnvFile_line. by rewrite Hhash.
  - by apply parseEnvFile_line_no_eq.
  - destruct line as [| a line]; [done |].
    rewrite startsWith_eq_cons in Hnokey. apply bool_decide_eq_true in Hnokey as ->.
    exact (parseEnvFile_line_eq m "" line eq_refl).
Qed.

(** X12: a line that is blank, a comment, without an equals sign or without
    a name before its first equals sign can be dropped from a file, wherever
    it stands, without changing what is parsed. *)
Theorem parseEnvFile_ignores_line (a c b : string) :
  JS.includes c LF = false →
  JS.trim c = ""
  ∨ JS.startsWith (JS.trim c) "#" = true
  ∨ JS.includes c "=" = false
  ∨ JS.startsWith c "=" = true →
  parseEnvFile (a +:+ String LF (c +:+ String LF b)) = parseEnvFile (a +:+ String LF b)
  ∧ parseEnvFile (c +:+ String LF b) = parseEnvFile b
  ∧ parseEnvFile (a +:+ String LF c) = parseEnvFile a.
Proof.
  intros Hline Hskip.
  assert (parseEnvFile c = ∅) as Hc.
  { rewrite (parseEnvFile_one_line _ Hline). by apply parseEnvFile_line_ignored. }
  rewrite !parseEnvFile_lf, Hc.
  by rewrite (right_id_L ∅ (∪)), (left_id_L ∅ (∪)).
Qed.

Lemma parseEnvFile_ignores_line_witness :
  parseEnvFile ("EZENV_PROJECT=project"
                +:+ String LF ("  # Another comment" +:+ String LF "EZENV_ENVIRONMENT=dev"))
    = parseEnvFile ("EZENV_PROJECT=project" +:+ String LF "EZENV_ENVIRONMENT=dev")
  ∧ parseEnvFile ("  # Another comment" +:+ String LF "EZENV_ENVIRONMENT=dev")
    = parseEnvFile "EZENV_ENVIRONMENT=dev"
  ∧ parseEnvFile ("EZENV_PROJECT=project" +:+ String LF "  # Another comment")
    = parseEnvFile "EZENV_PROJECT=project".
Proof.
  apply (parseEnvFile_ignores_line "EZENV_PROJECT=project" "  # Another comment"
           "EZENV_ENVIRONMENT=dev").
  - reflexivity.
  - right. left. reflexivity.
Defined.

Lemma remove_last_quote_snoc (v : string) q :
  is_quote q = true → remove_last_quote (v +:+ String q "") = v.
Proof.
  intros Hq. induction v as [| a v IH].
  - rewrite append_nil_l. simpl. by rewrite Hq.
  - rewrite append_cons_l.
    change (remove_last_quote (String a (v +:+ String q "")))
      with (match v +:+ String q "" with
            | EmptyString => if is_quote a then EmptyString
                             else String a (v +:+ String q "")
            | String _ _ => String a (remove_last_quote (v +:+ String q ""))
            end).
    rewrite IH. by destruct v.
Qed.

(** X13: the pattern of [parseEnvFile] takes one quote character off each
    end of a value: a value put between two quote characters, alike or not,
    comes out as it was, inner quotes included. *)
Theorem remove_quotes_quoted (v : string) q1 q2 :
  is_quote q1 = true → is_quote q2 = true →
  remove_quotes (String q1 (v +:+ String q2 "")) = v.
Proof.
  intros Hq1 Hq2. unfold remove_quotes. rewrite Hq1.
  by apply remove_last_quote_snoc.
Qed.

Lemma remove_quotes_quoted_witness :
  remove_quotes (String "'" ("it's" +:+ String (Ascii.ascii_of_nat 34) "")) = "it's".
Proof.
  apply (remove_quotes_quoted "it's" "'" (Ascii.ascii_of_nat 34)).
  - reflexivity.
  - reflexivity.
Defined.

Lemma white_not_eq w : JS.is_white w = true → Ascii.eqb w "=" = false.
Proof.
  intros Hw. destruct (Ascii.eqb_spec w "=") as [-> | Hne]; [discriminate Hw | done].
Qed.

(** White space at the end of a line changes nothing. *)
Lemma parseEnvFile_line_snoc_white (m : FileConfig) (line : string) w :
  JS.is_white w = true →
  parseEnvFile_line m (line +:+ String w "") = parseEnvFile_line m line.
Proof.
  intros Hw. destruct (JS.includes line "=") eqn:Hline.
  - apply includes_first in Hline as (k & v & -> & Hk).
    rewrite append_assoc, append_cons_l.
    rewrite !(parseEnvFile_line_eq _ _ _ Hk).
    by rewrite (trim_snoc_white _ _ Hw).
  - rewrite (parseEnvFile_line_no_eq _ _ Hline).
    apply parseEnvFile_line_no_eq.
    rewrite includes_app, Hline. simpl. by rewrite (white_not_eq _ Hw).
Qed.

(** A character that is no separator, put at the end, joins the last piece. *)
Lemma split_snoc sep (a : string) w :
  Ascii.eqb w sep = false →
  ∃ pieces last,
    JS.split sep a = (pieces ++ [last])%list
    ∧ JS.split sep (a +:+ String w "") = (pieces ++ [last +:+ String w ""])%list.
Proof.
  intros Hw. unfold JS.split. induction a as [| x a IH].
  - exists [], "". rewrite append_nil_l. simpl. by rewrite Hw.
  - destruct IH as (pieces & last & H1 & H2).
    rewrite append_cons_l. simpl.
    destruct (JS.split_pieces sep a) as [f r].
    destruct (JS.split_pieces sep (a +:+ String w "")) as [f' r'].
    destruct (Ascii.eqb x sep).
    + exists ("" :: pieces), last. simpl. by rewrite <- H1, <- H2.
    + destruct pieces as [| g pieces]; simpl in *.
      * injection H1 as -> ->. injection H2 as -> ->. by exists [], (String x last).
      * injection H1 as -> ->. injection H2 as -> ->.
        by exists (String x g :: pieces), last.
Qed.

(** X14: a white space character other than the line feed, put at the end of
    any line of a file, changes nothing in what is parsed; so a file with
    carriage returns before its line feeds parses as the file without
    them. *)
Theorem parseEnvFile_trailing_white (a b : string) w :
  JS.is_white w = true → w ≠ LF →
  parseEnvFile (a +:+ String w (String LF b)) = parseEnvFile (a +:+ String LF b)
  ∧ parseEnvFile (a +:+ String w "") = parseEnvFile a.
Proof.
  intros Hw Hlf.
  assert (parseEnvFile (a +:+ String w "") = parseEnvFile a) as Hlast.
  { unfold parseEnvFile.
    destruct (split_snoc LF a w) as (pieces & last & -> & ->).
    { by apply Ascii.eqb_neq. }
    rewrite !foldl_app. simpl. by apply parseEnvFile_line_snoc_white. }
  split; [| done].
  change (a +:+ String w (String LF b)) with (a +:+ String w "" +:+ String LF b).
  rewrite <- append_assoc, !parseEnvFile_lf. by rewrite Hlast.
Qed.

Lemma parseEnvFile_trailing_white_witness :
  parseEnvFile ("EZENV_PROJECT=project"
                +:+ String "013" (String LF "EZENV_ENVIRONMENT=dev"))
    = parseEnvFile ("EZENV_PROJECT=project" +:+ String LF "EZENV_ENVIRONMENT=dev")
  ∧ parseEnvFile ("EZENV_PROJECT=project" +:+ String "013" "")
    = parseEnvFile "EZENV_PROJECT=project".
Proof.
  apply (parseEnvFile_trailing_white "EZENV_PROJECT=project" "EZENV_ENVIRONMENT=dev"
           "013"%char).
  - reflexivity.
  - discriminate.
Defined.

(** ** loadFromFile and fromEnv *)

Lemma truthy_field_Some (v : option string) :
  truthy_field v = true → ∃ s, v = Some s ∧ s ≠ "".
Proof.
  destruct v as [s |]; [| done]. simpl.
  intros Hs%truthy_string_true. by exists s.
Qed.

(** A [load] on a client with an empty cache issues exactly one request. *)
Lemma load_fresh_one_request c p e net (env : ProcessEnv) :
  cache c = ∅ → p ≠ "" → e ≠ "" →
  network_calls (load c p e None net env).2 = 1%nat.
Proof.
  intros Hempty Hp He.
  assert ((load c p e None net env).2 = (get c p e None net).2) as ->.
  { unfold load. by destruct (get c p e None net) as [[[[s |] | err | m] c'] evs]. }
  rewrite get_events.
  apply truthy_string_true in Hp as ->. apply truthy_string_true in He as ->.
  rewrite Hempty, lookup_empty. simpl.
  by destruct (net _ _).
Qed.

(** The two ways a [loadFromFile] ends. *)
Lemma loadFromFile_cases fs filePath net (env : ProcessEnv) :
  (∃ msg, loadFromFile fs filePath net env = (Err (ValidationError msg), env, []))
  ∨ (∃ content k p e,
       existsSync fs (string_or filePath (default_path fs)) = true
       ∧ readFileSync fs (string_or filePath (default_path fs)) = inr content
       ∧ parseEnvFile content !! "EZENV_API_KEY" = Some k
       ∧ String.prefix "ezenv_" k = true
       ∧ parseEnvFile content !! "EZENV_PROJECT" = Some p ∧ p ≠ ""
       ∧ parseEnvFile content !! "EZENV_ENVIRONMENT" = Some e ∧ e ≠ ""
       ∧ loadFromFile fs filePath net env
         = (let '(r, _, env', evs) :=
              load {| apiKey := k;
                      baseUrl := string_or (parseEnvFile content !! "EZENV_BASE_URL")
                                   "https://ezenv.dev";
                      cache := ∅ |} p e None net env in
            (r, env', evs))).
Proof.
  unfold loadFromFile.
  destruct (existsSync fs _) eqn:Hex; simpl; [| left; by eexists].
  destruct (readFileSync fs _) as [t | content] eqn:Hread; [left; by eexists |].
  destruct (truthy_field (parseEnvFile content !! "EZENV_API_KEY")) eqn:Hk; simpl;
    [| left; by eexists].
  destruct (truthy_field (parseEnvFile content !! "EZENV_PROJECT")) eqn:Hp; simpl;
    [| left; by eexists].
  destruct (truthy_field (parseEnvFile content !! "EZENV_ENVIRONMENT")) eqn:He; simpl;
    [| left; by eexists].
  apply truthy_field_Some in Hk as (k & Hk & Hk').
  apply truthy_field_Some in Hp as (p & Hp & Hp').
  apply truthy_field_Some in He as (e & He & He').
  rewrite Hk, Hp, He. simpl.
  unfold new_EzEnv. simpl.
  apply truthy_string_true in Hk' as ->. simpl.
  destruct (String.prefix "ezenv_" k) eqn:Hpre; simpl; [| left; by eexists].
  right. exists content, k, p, e. repeat (split; [done |]).
  by destruct (load _ p e None net env) as [[[r c'] env'] evs].
Qed.

(** X15: [loadFromFile] either is rejected with a [ValidationError] before
    any network request and with [process.env] untouched, or the file exists,
    is read, and gives a key starting with [ezenv_], a project and an
    environment that are not empty; it is then the [load], without options,
    of that project and environment on a fresh client with that key and the
    base URL of the file, or the default one, and issues exactly one network
    request. *)
Theorem loadFromFile_outcome fs filePath net (env : ProcessEnv) :
  (∃ msg, loadFromFile fs filePath net env = (Err (ValidationError msg), env, []))
  ∨ (∃ content k p e,
       existsSync fs (string_or filePath (default_path fs)) = true
       ∧ readFileSync fs (string_or filePath (default_path fs)) = inr content
       ∧ parseEnvFile content !! "EZENV_API_KEY" = Some k
       ∧ String.prefix "ezenv_" k = true
       ∧ parseEnvFile content !! "EZENV_PROJECT" = Some p ∧ p ≠ ""
       ∧ parseEnvFile content !! "EZENV_ENVIRONMENT" = Some e ∧ e ≠ ""
       ∧ loadFromFile fs filePath net env
         = (let '(r, _, env', evs) :=
              load {| apiKey := k;
                      baseUrl := string_or (parseEnvFile content !! "EZENV_BASE_URL")
                                   "https://ezenv.dev";
                      cache := ∅ |} p e None net env in
            (r, env', evs))
       ∧ network_calls (loadFromFile fs filePath net env).2 = 1%nat).
Proof.
  destruct (loadFromFile_cases fs filePath net env)
    as [Hfail | (content & k & p & e & Hex & Hread & Hk & Hpre & Hp & Hp' & He & He' & Heq)];
    [by left |].
  right. exists content, k, p, e. repeat (split; [done |]).
  rewrite Heq.
  pose proof (load_fresh_one_request
                {| apiKey := k;
                   baseUrl := string_or (parseEnvFile content !! "EZENV_BASE_URL")
                                "https://ezenv.dev";
                   cache := ∅ |} p e net env eq_refl Hp' He') as Hone.
  by destruct (load _ p e None net env) as [[[r c'] env'] evs].
Qed.

(** X16: whatever the file and the network, [loadFromFile] leaves every
    variable that [process.env] already has with its value. *)
Theorem loadFromFile_keeps_existing fs filePath net (env : ProcessEnv) k :
  is_Some (env !! k) →
  (loadFromFile fs filePath net env).1.2 !! k = env !! k.
Proof.
  intros Hk.
  destruct (loadFromFile_cases fs filePath net env)
    as [[msg ->] | (content & key & p & e & _ & _ & _ & _ & _ & _ & _ & _ & ->)];
    [done |].
  unfold load.
  destruct (get _ p e None net) as [[[[s |] | err | m] c'] evs]; [| done ..]. simpl.
  destruct Hk as [x Hx]. rewrite Hx.
  by apply (lookup_weaken env), (load_entries_grows None).
Qed.

Lemma loadFromFile_keeps_existing_witness :
  (loadFromFile
     (MkFileSystem "/app/.env.ezenv" (λ _, true)
        (λ _, inr ("EZENV_API_KEY=ezenv_test123" +:+ String LF
                     ("EZENV_PROJECT=project" +:+ String LF "EZENV_ENVIRONMENT=dev"))))
     None (mockSecrets {["EXISTING_VAR" := "new-value"; "NEW_VAR" := "new-value"]})
     {["EXISTING_VAR" := "original-value"]}).1.2 !! "EXISTING_VAR"
  = ({["EXISTING_VAR" := "original-value"]} : ProcessEnv) !! "EXISTING_VAR".
Proof.
  apply (loadFromFile_keeps_existing
           (MkFileSystem "/app/.env.ezenv" (λ _, true)
              (λ _, inr ("EZENV_API_KEY=ezenv_test123" +:+ String LF
                           ("EZENV_PROJECT=project" +:+ String LF "EZENV_ENVIRONMENT=dev"))))
           None (mockSecrets {["EXISTING_VAR" := "new-value"; "NEW_VAR" := "new-value"]})
           {["EXISTING_VAR" := "original-value"]} "EXISTING_VAR").
  by exists "original-value".
Defined.

(** X17: [fromEnv] gives a client exactly when [EZENV_API_KEY] is set in
    [process.env] and starts with [ezenv_]; the client has that key, the base
    URL of [EZENV_BASE_URL], or the default one when that is unset or empty,
    and an empty cache.  An unset or empty key is refused as not set, any
    other key as having an invalid format. *)
Theorem fromEnv_outcome (env : ProcessEnv) :
  match fromEnv env with
  | Ok c =>
      env !! "EZENV_API_KEY" = Some (apiKey c)
      ∧ String.prefix "ezenv_" (apiKey c) = true
      ∧ baseUrl c = string_or (env !! "EZENV_BASE_URL") "https://ezenv.dev"
      ∧ getCacheSize c = 0%nat
  | Err err =>
      (truthy_field (env !! "EZENV_API_KEY") = false
       ∧ err = ValidationError "EZENV_API_KEY environment variable is not set")
      ∨ (∃ k, env !! "EZENV_API_KEY" = Some k ∧ k ≠ ""
              ∧ String.prefix "ezenv_" k = false
              ∧ err = ValidationError "Invalid API key format")
  | RawTypeError _ => False
  end.
Proof.
  unfold fromEnv.
  destruct (truthy_field (env !! "EZENV_API_KEY")) eqn:Hk; simpl; [| by left].
  apply truthy_field_Some in Hk as (k & Hk & Hk'). rewrite Hk. simpl.
  unfold new_EzEnv. simpl.
  pose proof Hk' as Hk''. apply truthy_string_true in Hk'' as ->. simpl.
  destruct (String.prefix "ezenv_" k) eqn:Hpre; simpl; [done |].
  right. by exists k.
Qed.

(** ** What the class of an error tells *)

(** X18: when the transport itself never throws an error of the library, the
    class of the error a [get] is rejected with tells what happened:
    [ValidationError] means an empty name and no network request;
    [NetworkError] means that [fetch] or the reading of the body failed;
    [AuthError], [NotFoundError] and the base class mean that a response with
    a failure status and a readable body arrived, with status 401 or 403, with
    status 404, and with any other status. *)
Theorem get_error_class_tells_cause c p e o net err c' evs :
  (∀ e0, net (secrets_request c p e) (timer_delay o) ≠ FetchRejects (ThrownEzEnv e0)) →
  (∀ r e0, net (secrets_request c p e) (timer_delay o) = FetchResolves r →
           json r ≠ JsonRejects (ThrownEzEnv e0)) →
  get c p e o net = (Err err, c', evs) →
  match class err with
  | ValidationErrorC => (p = "" ∨ e = "") ∧ evs = []
  | NetworkErrorC =>
      p ≠ "" ∧ e ≠ ""
      ∧ ((∃ t, net (secrets_request c p e) (timer_delay o) = FetchRejects t)
         ∨ (∃ r t, net (secrets_request c p e) (timer_delay o) = FetchResolves r
                   ∧ json r = JsonRejects t))
  | AuthErrorC =>
      ∃ r d, net (secrets_request c p e) (timer_delay o) = FetchResolves r
             ∧ json r = JsonResolves d ∧ ok r = false
             ∧ (status r = 401 ∨ status r = 403)
  | NotFoundErrorC =>
      ∃ r d, net (secrets_request c p e) (timer_delay o) = FetchResolves r
             ∧ json r = JsonResolves d ∧ ok r = false ∧ status r = 404
  | EzEnvErrorC =>
      ∃ r d, net (secrets_request c p e) (timer_delay o) = FetchResolves r
             ∧ json r = JsonResolves d ∧ ok r = false
             ∧ status r ≠ 401 ∧ status r ≠ 403 ∧ status r ≠ 404
  end.
Proof.
  intros Hfetch Hjson. unfold get.
  destruct (truthy_string p) eqn:Hp; simpl.
  2:{ apply truthy_string_false in Hp. intros [= <- _ <-]. simpl. auto. }
  destruct (truthy_string e) eqn:He; simpl.
  2:{ apply truthy_string_false in He. intros [= <- _ <-]. simpl. auto. }
  apply truthy_string_true in Hp, He.
  destruct (if negb _ then _ else _); [by intros [=] |].
  unfold get_try.
  destruct (net _ _) as [t | r] eqn:Hnet.
  { intros [= <- _ _]. destruct t as [e0 | n m]; [by destruct (Hfetch e0) |].
    assert (class (get_catch (ThrownOther n m)) = NetworkErrorC) as ->.
    { simpl. by repeat case_bool_decide. }
    split; [done |]. split; [done |]. left. by eexists. }
  destruct (json r) as [t | d] eqn:Hbody.
  { intros [= <- _ _]. destruct t as [e0 | n m]; [by destruct (Hjson r e0) |].
    assert (class (get_catch (ThrownOther n m)) = NetworkErrorC) as ->.
    { simpl. by repeat case_bool_decide. }
    split; [done |]. split; [done |]. right. by eexists _, _. }
  destruct (ok r) eqn:Hok; simpl; [by intros [=] |].
  intros [= <- _ _]. unfold status_error.
  destruct (status r =? 401) eqn:H1; simpl.
  { apply Z.eqb_eq in H1. exists r, d. auto. }
  destruct (status r =? 403) eqn:H3; simpl.
  { apply Z.eqb_eq in H3. exists r, d. auto. }
  destruct (status r =? 404) eqn:H4; simpl.
  { apply Z.eqb_eq in H4. by exists r, d. }
  apply Z.eqb_neq in H1, H3, H4. by exists r, d.
Qed.

Lemma get_error_class_tells_cause_witness :
  match class (NotFoundError "Project not found") with
  | ValidationErrorC =>
      ("project" = "" ∨ "env" = "")
      ∧ [SetTimeout 30000; Fetch (secrets_request test_client "project" "env");
         ClearTimeout] = []
  | NetworkErrorC =>
      "project" ≠ "" ∧ "env" ≠ ""
      ∧ ((∃ t, mockFailure 404 (Some "Project not found")
                 (secrets_request test_client "project" "env") (timer_delay None)
               = FetchRejects t)
         ∨ (∃ r t, mockFailure 404 (Some "Project not found")
                     (secrets_request test_client "project" "env") (timer_delay None)
                   = FetchResolves r
                   ∧ json r = JsonRejects t))
  | AuthErrorC =>
      ∃ r d, mockFailure 404 (Some "Project not found")
               (secrets_request test_client "project" "env") (timer_delay None)
             = FetchResolves r
             ∧ json r = JsonResolves d ∧ ok r = false
             ∧ (status r = 401 ∨ status r = 403)
  | NotFoundErrorC =>
      ∃ r d, mockFailure 404 (Some "Project not found")
               (secrets_request test_client "project" "env") (timer_delay None)
             = FetchResolves r
             ∧ json r = JsonResolves d ∧ ok r = false ∧ status r = 404
  | EzEnvErrorC =>
      ∃ r d, mockFailure 404 (Some "Project not found")
               (secrets_request test_client "project" "env") (timer_delay None)
             = FetchResolves r
             ∧ json r = JsonResolves d ∧ ok r = false
             ∧ status r ≠ 401 ∧ status r ≠ 403 ∧ status r ≠ 404
  end.
Proof.
  apply (get_error_class_tells_cause test_client "project" "env" None
           (mockFailure 404 (Some "Project not found"))
           (NotFoundError "Project not found") test_client
           [SetTimeout 30000; Fetch (secrets_request test_client "project" "env");
            ClearTimeout]).
  - discriminate.
  - intros r e0 [= <-]. discriminate.
  - reflexivity.
Defined.
